(** * HR allocation app: the authentication and utilization core

    A shallow embedding of [hr_allocation_flask_app.py]: the SQLAlchemy
    models, the JSON handlers under [/api/auth], [/api/projects] and
    [/api/resources], and the Python primitives they rely on ([sum],
    true division of integers, [round]).  Handlers are functions from the
    request and the server state (database tables, Flask session) to a
    response and a new state; a Python exception is a [Raise] result. *)

From Stdlib Require Import ZArith Lia.
From Stdlib Require Import Floats.SpecFloat.
From stdpp Require Import base numbers list strings pretty gmap sorting.

Local Open Scope Z_scope.

(** ** Python runtime *)

Module Py.

(** The exceptions that the modelled code can raise. *)
Inductive exn : Set :=
| ZeroDivisionError
| OverflowError
| ValueError
| IntegrityError
| AttributeError.

Inductive result (A : Type) : Type :=
| Ok (a : A)
| Raise (e : exn).
Arguments Ok {A} a.
Arguments Raise {A} e.

(** Sequencing: an exception aborts the rest of the handler. *)
#[global] Instance result_ret : MRet result := fun A a => Ok a.
#[global] Instance result_bind : MBind result := fun A B k r =>
  match r with
  | Ok a => k a
  | Raise e => Raise e
  end.

(** Truthiness of a value read with [data.get(key)], as tested by
    [if not (email and password)]: [None] and the empty string are false.
    A true value is returned as the string it is. *)
Definition present (v : option string) : option string :=
  match v with
  | Some s => if String.eqb s "" then None else Some s
  | None => None
  end.

(** [a or b] on an optional string with a string default. *)
Definition or_default (v : option string) (d : string) : string :=
  match v with
  | Some s => if String.eqb s "" then d else s
  | None => d
  end.

(** [sum(xs)] over Python integers, which are unbounded. *)
Definition sum (xs : list Z) : Z := foldl Z.add 0 xs.

(** [len(xs)]. *)
Definition len {A} (xs : list A) : Z := Z.of_nat (length xs).

(** A Python [float] is an IEEE 754 binary64 value. *)
Definition prec : Z := 53.
Definition emax : Z := 1024.

(** The integer [z] as an exact (not yet rounded) binary value. *)
Definition exact_of_int (z : Z) : spec_float :=
  match z with
  | Z0 => S754_zero false
  | Zpos p => S754_finite false p 0
  | Zneg p => S754_finite true p 0
  end.

(** [a / b] on integers: the binary64 value nearest to the exact quotient,
    ties to even; [ZeroDivisionError] for a zero divisor and
    [OverflowError] when the quotient is too large for a float. *)
Definition truediv (a b : Z) : result spec_float :=
  if b =? 0 then Raise ZeroDivisionError
  else
    match SFdiv prec emax (exact_of_int a) (exact_of_int b) with
    | S754_infinity _ => Raise OverflowError
    | f => Ok f
    end.

(** [a / b] (with [0 < b]) rounded to the nearest integer, ties to the
    even one.  The quotient is exact: only integer arithmetic is used. *)
Definition round_half_even_div (a b : Z) : Z :=
  let q := a / b in
  let r := a mod b in
  match 2 * r ?= b with
  | Lt => q
  | Gt => q + 1
  | Eq => if Z.even q then q else q + 1
  end.

(** [round(x)] on a float, no [ndigits]: the nearest integer, ties to
    even, as an [int]; infinities and NaN raise. *)
Definition round (x : spec_float) : result Z :=
  match x with
  | S754_zero _ => Ok 0
  | S754_finite s m e =>
      Ok (cond_Zopp s
            match e with
            | Zneg p => round_half_even_div (Zpos m) (2 ^ Zpos p)
            | _ => Zpos m * 2 ^ e
            end)
  | S754_infinity _ => Raise OverflowError
  | S754_nan => Raise ValueError
  end.

End Py.


Import Py.

(** ** JSON values and HTTP responses *)

(** Python dictionaries keep insertion order, so a JSON object is an
    association list from keys to values. *)
#[local] Set Warnings "-register-all".

Inductive json : Type :=
| JNull
| JBool (b : bool)
| JInt (z : Z)
| JStr (s : string)
| JList (l : list json)
| JDict (d : list (string * json)).

Definition dict : Type := list (string * json).

(** [d.get(k)]: the value of the first binding of [k]. *)
Fixpoint dict_get (k : string) (d : dict) : option json :=
  match d with
  | [] => None
  | (k', v) :: d' => if String.eqb k' k then Some v else dict_get k d'
  end.

Definition keys (d : dict) : list string := map fst d.

Record response : Type := {
  body : dict;
  status : Z
}.

(** [jsonify] with keyword arguments answers 200 with them as the body;
    [return jsonify(...), code] overrides the status. *)
Definition jsonify (kwargs : dict) : response :=
  {| body := kwargs; status := 200 |}.

Definition with_status (r : response) (code : Z) : response :=
  {| body := body r; status := code |}.

(** Truthiness of a JSON value, as Python tests it in [if not (...)]. *)
Definition truthy (v : json) : bool :=
  match v with
  | JNull => false
  | JBool b => b
  | JInt z => negb (z =? 0)
  | JStr s => negb (String.eqb s "")
  | JList l => match l with [] => false | _ :: _ => true end
  | JDict d => match d with [] => false | _ :: _ => true end
  end.

(** A value read with [data.get(key)], when it is there and true. *)
Definition present_value (v : option json) : option json :=
  match v with
  | Some j => if truthy j then Some j else None
  | None => None
  end.

Definition opt_json {A} (f : A -> json) (v : option A) : json :=
  match v with
  | Some a => f a
  | None => JNull
  end.

(** ** Collaborators outside the repository

    [werkzeug.security] hashes and checks passwords; [datetime] and [date]
    values print themselves with [isoformat].  A [datetime] is a count of
    microseconds and a [date] a count of days, both as integers, so that
    they can be compared.  The random salt that werkzeug draws is an
    explicit argument.  [check_password_hash] is called with the stored
    hash and with whatever value the request carries as its password; it
    answers whether the password verifies, or raises (it encodes the
    password first, which only a string allows). *)
Class Runtime : Type := {
  generate_password_hash : string -> string -> string;
  check_password_hash : string -> json -> result bool;
  isoformat_datetime : Z -> string;
  isoformat_date : Z -> string
}.

(** ** Models *)

Module User.
Record t : Type := {
  id : Z;
  name : string;
  email : string;
  password_hash : string;
  position : string;
  created_at : Z
}.

Definition to_dict `{Runtime} (self : t) : dict :=
  [ ("id", JInt (id self));
    ("name", JStr (name self));
    ("email", JStr (email self));
    ("position", JStr (position self));
    ("createdAt", JStr (isoformat_datetime (created_at self))) ]%string.
End User.

Module Project.
Record t : Type := {
  id : Z;
  name : string;
  manager : option string;
  start_date : option Z;
  end_date : option Z;
  status : string;
  updated_at : Z
}.

Definition to_dict `{Runtime} (self : t) : dict :=
  [ ("id", JInt (id self));
    ("name", JStr (name self));
    ("manager", opt_json JStr (manager self));
    ("startDate", opt_json (fun d => JStr (isoformat_date d)) (start_date self));
    ("endDate", opt_json (fun d => JStr (isoformat_date d)) (end_date self));
    ("status", JStr (status self));
    ("updatedAt", JStr (isoformat_datetime (updated_at self))) ]%string.
End Project.

(** [availability] is a percentage, and nothing checks its range: it can be
    negative or above 100.  The column is an integer; the rows that the
    program writes always carry one. *)
Module Resource.
Record t : Type := {
  id : Z;
  name : string;
  position : string;
  availability : Z;
  current_project : option string
}.

Definition to_dict (self : t) : dict :=
  [ ("id", JInt (id self));
    ("name", JStr (name self));
    ("position", JStr (position self));
    ("availability", JInt (availability self));
    ("currentProject", opt_json JStr (current_project self)) ]%string.
End Resource.

(** ** The database

    Three tables, each a list of rows in insertion order. *)

Record db : Type := {
  users : list User.t;
  projects : list Project.t;
  resources : list Resource.t
}.

Module Query.

(** [Model.query.all()] returns the table; [.count()] its size. *)
Definition count {A} (rows : list A) : Z := Z.of_nat (length rows).

(** [.filter(cond)] keeps the rows on which the condition holds. *)
Definition filter {A} (cond : A -> bool) (rows : list A) : list A :=
  List.filter cond rows.

(** [.first()]: the first row, if any. *)
Definition first {A} (rows : list A) : option A := head rows.

(** [User.query.filter_by(email=email)]. *)
Definition filter_by_email (email : string) (rows : list User.t) : list User.t :=
  filter (fun u => String.eqb (User.email u) email) rows.

(** [User.query.get(uid)]: lookup by primary key. *)
Definition get (uid : Z) (rows : list User.t) : option User.t :=
  first (filter (fun u => User.id u =? uid) rows).

(** [order_by(Project.updated_at.desc())]: later timestamps first.  SQL
    leaves the relative order of equal timestamps to the engine. *)
Definition updated_desc (p q : Project.t) : Prop :=
  Project.updated_at q <= Project.updated_at p.

#[global] Instance updated_desc_dec p q : Decision (updated_desc p q) :=
  Z_le_dec (Project.updated_at q) (Project.updated_at p).

Definition order_by_updated_at_desc (rows : list Project.t) : list Project.t :=
  merge_sort updated_desc rows.

(** The key that the engine gives a new row: one more than the largest
    key in the table. *)
Definition next_id (rows : list User.t) : Z :=
  1 + foldr Z.max 0 (map User.id rows).

(** [db.session.add(user); db.session.commit()].  The [email] column is
    declared [unique=True]: the commit of a duplicate raises. *)
Definition add_user (name email hash position : string) (now : Z) (d : db)
  : result (User.t * db) :=
  match first (filter_by_email email (users d)) with
  | Some _ => Raise IntegrityError
  | None =>
      let user := {| User.id := next_id (users d);
                     User.name := name;
                     User.email := email;
                     User.password_hash := hash;
                     User.position := position;
                     User.created_at := now |} in
      Ok (user, {| users := users d ++ [user];
                   projects := projects d;
                   resources := resources d |})
  end.

End Query.

(** ** Server state and requests *)

(** The Flask [session] is a dictionary; the handlers only ever use its
    key ["user_id"]. *)
Record state : Type := {
  database : db;
  session : gmap string Z
}.

(** What a request reads from outside the program: the salt of a new
    password hash and the clock, [datetime.utcnow()]. *)
Record env : Type := {
  salt : string;
  utcnow : Z
}.

(** The JSON body of a request, [request.get_json() or {}], read with
    [data.get(key)]: each field is a string or missing. *)
Record register_data : Type := {
  reg_name : option string;
  reg_email : option string;
  reg_password : option string;
  reg_position : option string
}.

(** The body of a login.  The password is any JSON value: the handler
    tests its truth and hands it to [check_password_hash] as it is.  The
    email is a string or missing. *)
Record login_data : Type := {
  login_email : option string;
  login_password : option json
}.

Definition failure (message : string) (code : Z) : response :=
  with_status (jsonify [("success", JBool false); ("message", JStr message)]%string) code.

Definition success (data : json) : response :=
  jsonify [("success", JBool true); ("data", data)]%string.

(** The statistics of [api_resource_stats], under the keys of its [data]. *)
Record Stats : Type := {
  totalResources : Z;
  allocatedResources : Z;
  availableResources : Z;
  averageUtilization : Z;
  overallocated : Z;
  totalProjects : Z
}.

Definition stats_to_dict (s : Stats) : dict :=
  [ ("totalResources", JInt (totalResources s));
    ("allocatedResources", JInt (allocatedResources s));
    ("availableResources", JInt (availableResources s));
    ("averageUtilization", JInt (averageUtilization s));
    ("overallocated", JInt (overallocated s));
    ("totalProjects", JInt (totalProjects s)) ]%string.

(** ** The handlers *)

Section Handlers.
Context `{Runtime}.

Definition api_register (e : env) (data : register_data) (st : state)
  : result (response * state) :=
  let position := or_default (reg_position data) "Developer" in
  match present (reg_name data), present (reg_email data), present (reg_password data) with
  | Some name, Some email, Some password =>
      match Query.first (Query.filter_by_email email (users (database st))) with
      | Some _ => Ok (failure "Email already registered" 400, st)
      | None =>
          '(user, d) ← Query.add_user name email
                         (generate_password_hash (salt e) password)
                         position (utcnow e) (database st);
          Ok (success (JDict (User.to_dict user)),
              {| database := d; session := session st |})
      end
  | _, _, _ => Ok (failure "Name, email and password are required" 400, st)
  end.

Definition api_login (data : login_data) (st : state)
  : result (response * state) :=
  match present (login_email data), present_value (login_password data) with
  | Some email, Some password =>
      match Query.first (Query.filter_by_email email (users (database st))) with
      | None => Ok (failure "Invalid credentials" 401, st)
      | Some user =>
          verified ← check_password_hash (User.password_hash user) password;
          if negb verified
          then Ok (failure "Invalid credentials" 401, st)
          else Ok (success (JDict (User.to_dict user)),
                   {| database := database st;
                      session := <["user_id" := User.id user]> (session st) |})
      end
  | _, _ => Ok (failure "Email and password required" 400, st)
  end.

(** [if not uid] also rejects the key 0. *)
Definition api_me (st : state) : result (response * state) :=
  match session st !! "user_id" with
  | None => Ok (failure "Not authenticated" 401, st)
  | Some uid =>
      if uid =? 0 then Ok (failure "Not authenticated" 401, st)
      else
        match Query.get uid (users (database st)) with
        | None => Ok (failure "User not found" 404, st)
        | Some user => Ok (success (JDict (User.to_dict user)), st)
        end
  end.

Definition api_logout (st : state) : result (response * state) :=
  Ok (jsonify [("success", JBool true)]%string,
      {| database := database st; session := delete "user_id" (session st) |}).

Definition api_get_projects (st : state) : result (response * state) :=
  let projects := Query.order_by_updated_at_desc (projects (database st)) in
  let data := map (fun p => JDict (Project.to_dict p)) projects in
  Ok (success (JList data), st).

Definition api_get_resources (st : state) : result (response * state) :=
  let resources := resources (database st) in
  let data := map (fun r => JDict (Resource.to_dict r)) resources in
  Ok (success (JList data), st).

Definition api_get_reports (e : env) (st : state) : result (response * state) :=
  let reports :=
    [ JDict [ ("id", JInt 1); ("name", JStr "Q2 Resource Utilization");
              ("generatedBy", JStr "System");
              ("createdAt", JStr (isoformat_datetime (utcnow e)));
              ("type", JStr "Resource Utilization") ];
      JDict [ ("id", JInt 2); ("name", JStr "Project Progress - May 2023");
              ("generatedBy", JStr "Benjamin Godswill");
              ("createdAt", JStr (isoformat_datetime (utcnow e)));
              ("type", JStr "Project Progress") ] ]%string in
  Ok (success (JList reports), st).

(** The body of [api_resource_stats] up to its [return]: four counting
    queries, one full read, and the average. *)
Definition resource_stats (d : db) : result Stats :=
  let total := Query.count (resources d) in
  let allocated :=
    Query.count (Query.filter (fun r => Resource.availability r <? 100) (resources d)) in
  let available :=
    Query.count (Query.filter (fun r => Resource.availability r >? 0) (resources d)) in
  let resources_ := resources d in
  avg_util ←
    match resources_ with
    | [] => Ok 0
    | _ :: _ =>
        q ← truediv (sum (map (fun r => 100 - Resource.availability r) resources_))
                    (len resources_);
        round q
    end;
  let overallocated :=
    Query.count (Query.filter (fun r => Resource.availability r <=? 0) (resources d)) in
  Ok {| totalResources := total;
        allocatedResources := allocated;
        availableResources := available;
        averageUtilization := avg_util;
        overallocated := overallocated;
        totalProjects := Query.count (projects d) |}.

Definition api_resource_stats (st : state) : result (response * state) :=
  s ← resource_stats (database st);
  Ok (success (JDict (stats_to_dict s)), st).

(** The routes under [/api]. *)
Inductive request : Type :=
| Register (data : register_data)
| Login (data : login_data)
| Me
| Logout
| GetProjects
| GetResources
| GetReports
| ResourceStats.

Definition handle (e : env) (r : request) (st : state) : result (response * state) :=
  match r with
  | Register data => api_register e data st
  | Login data => api_login data st
  | Me => api_me st
  | Logout => api_logout st
  | GetProjects => api_get_projects st
  | GetResources => api_get_resources st
  | GetReports => api_get_reports e st
  | ResourceStats => api_resource_stats st
  end.

(** The state after a request; a handler that raises leaves it as it was. *)
Definition serve (e : env) (r : request) (st : state) : state :=
  match handle e r st with
  | Ok (_, st') => st'
  | Raise _ => st
  end.

(** A request that logs a user in: a [Login] answered with success. *)
Definition logs_in (r : request) (st : state) : bool :=
  match r with
  | Login data =>
      match api_login data st with
      | Ok (resp, _) => bool_decide (status resp = 200)
      | Raise _ => false
      end
  | _ => false
  end.

(** The state after a sequence of requests, each with what it reads from
    outside. *)
Definition run (rs : list (env * request)) (st : state) : state :=
  foldl (fun st er => serve (fst er) (snd er) st) st rs.

(** No request of the sequence logs a user in, each one judged in the
    state that it meets. *)
Fixpoint no_login (rs : list (env * request)) (st : state) : Prop :=
  match rs with
  | [] => True
  | er :: rs' => logs_in (snd er) st = false /\ no_login rs' (serve (fst er) (snd er) st)
  end.

(** The requests that answer with a user: register, login, who-am-I. *)
Definition answers_user (r : request) : bool :=
  match r with
  | Register _ | Login _ | Me => true
  | _ => false
  end.

End Handlers.

(** ** Notions of the specification *)

(** The sum of the utilizations, [100 - availability], of a table. *)
Definition total_utilization (rs : list Resource.t) : Z :=
  sum (map (fun r => 100 - Resource.availability r) rs).

(** The value that [resource_stats] binds to [avg_util], on its own. *)
Definition average_utilization (rs : list Resource.t) : result Z :=
  match rs with
  | [] => Ok 0
  | _ :: _ => q ← truediv (total_utilization rs) (len rs); round q
  end.

(** Resources with availability in 1..99, equal to 100, and above 100. *)
Definition count_partial (rs : list Resource.t) : Z :=
  Query.count
    (Query.filter (fun r => (1 <=? Resource.availability r) && (Resource.availability r <=? 99)) rs).

Definition count_full (rs : list Resource.t) : Z :=
  Query.count (Query.filter (fun r => Resource.availability r =? 100) rs).

Definition count_above (rs : list Resource.t) : Z :=
  Query.count (Query.filter (fun r => 100 <? Resource.availability r) rs).

(** Standard rounding of the exact quotient [a / b], [0 < b]: to the
    nearest integer, halves away from zero. *)
Definition round_half_away_div (a b : Z) : Z :=
  if 0 <=? a then (2 * a + b) / (2 * b) else - ((2 * (- a) + b) / (2 * b)).

(** The [email] column is unique. *)
Definition unique_emails (us : list User.t) : Prop :=
  NoDup (map User.email us).


(** A user with the email exists; none does; one does and the password
    does not verify against the hash stored with that email. *)
Definition known_email (email : string) (st : state) : Prop :=
  exists user, user ∈ users (database st) /\ User.email user = email.

Definition unknown_email (email : string) (st : state) : Prop :=
  forall user, user ∈ users (database st) -> User.email user <> email.

Definition wrong_password `{Runtime} (email password : string) (st : state) : Prop :=
  known_email email st /\
  forall user,
    user ∈ users (database st) -> User.email user = email ->
    check_password_hash (User.password_hash user) (JStr password) = Ok false.

(** The two failures of the login handler. *)
Definition invalid_credentials : response := failure "Invalid credentials" 401.
Definition credentials_required : response := failure "Email and password required" 400.


(** The failure of who-am-I without a session. *)
Definition not_authenticated : response := failure "Not authenticated" 401.

(** The fields of a user as the interface shows it. *)
Definition user_fields : list string :=
  ["id"; "name"; "email"; "position"; "createdAt"]%string.

Definition set_password_hash (h : string) (u : User.t) : User.t :=
  {| User.id := User.id u;
     User.name := User.name u;
     User.email := User.email u;
     User.password_hash := h;
     User.position := User.position u;
     User.created_at := User.created_at u |}.

(** A user as the interface shows it: the five public columns, under
    their keys. *)
Definition user_view `{Runtime} (u : User.t) : json :=
  JDict [ ("id", JInt (User.id u));
          ("name", JStr (User.name u));
          ("email", JStr (User.email u));
          ("position", JStr (User.position u));
          ("createdAt", JStr (isoformat_datetime (User.created_at u))) ]%string.

(** What the caller sees of a handler's outcome: the response, or the
    exception. *)
Definition answer (r : result (response * state)) : result response :=
  match r with
  | Ok (resp, _) => Ok resp
  | Raise e => Raise e
  end.

(** The same state with every stored hash replaced. *)
Definition rehash (f : User.t -> string) (st : state) : state :=
  {| database := {| users := map (fun u => set_password_hash (f u) u) (users (database st));
                    projects := projects (database st);
                    resources := resources (database st) |};
     session := session st |}.

(** ** Notions used in the proofs about floats *)

(** [N / D] lies at location [l] of the unit interval that starts at [m]. *)
Definition inbetween (N D m : Z) (l : location) : Prop :=
  match l with
  | loc_Exact => N = m * D
  | loc_Inexact Lt => m * D < N /\ 2 * N < (2 * m + 1) * D
  | loc_Inexact Eq => 2 * N = (2 * m + 1) * D
  | loc_Inexact Gt => (2 * m + 1) * D < 2 * N /\ N < (m + 1) * D
  end.

(** [z] is the integer nearest to [N / D], the even one of the two at a tie. *)
Definition nearest_even (N D z : Z) : Prop :=
  (- D < 2 * N - 2 * z * D < D) \/
  ((2 * N - 2 * z * D = D \/ 2 * N - 2 * z * D = - D) /\ Z.even z = true).

(** The result of [binary_round_aux] for the rounded mantissa [m] at
    exponent [e]: a mantissa that reached [2 ^ 53] is renormalised, and an
    exponent above the largest one overflows. *)
Definition rounded (s : bool) (m e : Z) : spec_float :=
  if m =? 0 then S754_zero s
  else if m <? 2 ^ 53
       then (if e <=? 971 then S754_finite s (Z.to_pos m) e else S754_infinity s)
       else (if e + 1 <=? 971 then S754_finite s (Z.to_pos (m / 2)) (e + 1)
             else S754_infinity s).

(** IEEE division of the doubles nearest to two integers,
    [float(a) / float(b)]. *)
Definition float_div (a b : Z) : spec_float :=
  SFdiv prec emax (binary_normalize prec emax a 0 false)
                  (binary_normalize prec emax b 0 false).

(** ** Sample data

    A runtime whose hash is the salted password in clear, and the tables
    that [init_db] seeds.  As in werkzeug, a hash without a separator
    verifies nothing, and a password that is not a string cannot be
    encoded. *)

Definition sample_runtime : Runtime := {|
  generate_password_hash salt password := (salt +:+ "$" +:+ password)%string;
  check_password_hash h password :=
    match String.index 0 "$" h with
    | Some n =>
        match password with
        | JStr p => Ok (String.eqb (String.substring (S n) (String.length h - S n) h) p)
        | _ => Raise AttributeError
        end
    | None => Ok false
    end;
  isoformat_datetime t := pretty t;
  isoformat_date d := pretty d
|}.

Definition seed_user : User.t := {|
  User.id := 1;
  User.name := "Babafemi Oyindamola";
  User.email := "john@example.com";
  User.password_hash := "salt$password";
  User.position := "Project Manager";
  User.created_at := 0
|}.

Definition seed_projects : list Project.t :=
  [ {| Project.id := 1; Project.name := "E-commerce Platform";
       Project.manager := Some "Babafemi Oyindamola"%string;
       Project.start_date := Some 19431; Project.end_date := Some 19630;
       Project.status := "active"; Project.updated_at := 10 |};
    {| Project.id := 2; Project.name := "Mobile Banking App";
       Project.manager := Some "Akinleye Tolu"%string;
       Project.start_date := Some 19478; Project.end_date := Some 19676;
       Project.status := "active"; Project.updated_at := 30 |};
    {| Project.id := 3; Project.name := "CRM System";
       Project.manager := Some "Oluleye Philip"%string;
       Project.start_date := Some 19367; Project.end_date := Some 19569;
       Project.status := "completed"; Project.updated_at := 20 |} ].

Definition resource (i a : Z) : Resource.t := {|
  Resource.id := i;
  Resource.name := "Benjamin Godswill";
  Resource.position := "Project Manager";
  Resource.availability := a;
  Resource.current_project := None
|}.

Definition seed_db : db := {|
  users := [seed_user];
  projects := seed_projects;
  resources := [resource 1 0; resource 2 20; resource 3 0]
|}.

Definition with_resources (rs : list Resource.t) : db := {|
  users := users seed_db;
  projects := projects seed_db;
  resources := rs
|}.

Definition seed_state : state := {| database := seed_db; session := ∅ |}.

Definition sample_env : env := {| salt := "salt"; utcnow := 42 |}.

Definition empty_state : state := {|
  database := {| users := []; projects := []; resources := [] |};
  session := ∅
|}.

Definition logged_in_state : state := {|
  database := seed_db;
  session := {["user_id" := 1]}
|}.

(** ** Configuration and seeding *)

(** [s.replace(old, new, 1)]: the leftmost occurrence of [old] in [s]
    replaced by [new]; [s] itself when there is none. *)
Fixpoint replace_first (old new s : string) {struct s} : string :=
  if String.prefix old s
  then new +:+ String.substring (String.length old)
                 (String.length s - String.length old) s
  else match s with
       | EmptyString => EmptyString
       | String c s' => String c (replace_first old new s')
       end.

(** The value of [app.config['SQLALCHEMY_DATABASE_URI']], from the
    environment variable [DATABASE_URL] (absent, or a string). *)
Definition database_uri (DATABASE_URL : option string) : string :=
  let database_url := default "sqlite:///hr_alloc.db"%string DATABASE_URL in
  if negb (String.eqb database_url "") && String.prefix "postgres://" database_url
  then replace_first "postgres://" "postgresql://" database_url
  else database_url.

(** The keys that the engine gives to new projects and resources. *)
Definition project_next_id (rows : list Project.t) : Z :=
  1 + foldr Z.max 0 (map Project.id rows).

Definition resource_next_id (rows : list Resource.t) : Z :=
  1 + foldr Z.max 0 (map Resource.id rows).

(** [Project(...)] added to the table: the key comes from the engine and
    [updated_at] from its default, the clock. *)
Definition add_project (name manager : string) (start_date end_date : Z)
           (status : string) (now : Z) (rows : list Project.t) : list Project.t :=
  rows ++ [ {| Project.id := project_next_id rows;
               Project.name := name;
               Project.manager := Some manager;
               Project.start_date := Some start_date;
               Project.end_date := Some end_date;
               Project.status := status;
               Project.updated_at := now |} ].

Definition add_resource (name position : string) (availability : Z)
           (current_project : string) (rows : list Resource.t) : list Resource.t :=
  rows ++ [ {| Resource.id := resource_next_id rows;
               Resource.name := name;
               Resource.position := position;
               Resource.availability := availability;
               Resource.current_project := Some current_project |} ].

(** [init_db]: each table that has no first row gets its sample rows.  The
    dates are counts of days since 1970-01-01. *)
Definition init_db `{Runtime} (e : env) (d : db) : result db :=
  d ← match Query.first (users d) with
      | Some _ => Ok d
      | None =>
          '(_, d') ← Query.add_user "Babafemi Oyindamola" "john@example.com"
                       (generate_password_hash (salt e) "password")
                       "Project Manager" (utcnow e) d;
          Ok d'
      end;
  let d :=
    match Query.first (projects d) with
    | Some _ => d
    | None =>
        {| users := users d;
           projects :=
             add_project "CRM System" "Oluleye Philip" 19367 19569 "completed" (utcnow e)
               (add_project "Mobile Banking App" "Akinleye Tolu" 19478 19676 "active" (utcnow e)
                  (add_project "E-commerce Platform" "Babafemi Oyindamola" 19431 19630
                     "active" (utcnow e) (projects d)));
           resources := resources d |}
    end in
  let d :=
    match Query.first (resources d) with
    | Some _ => d
    | None =>
        {| users := users d;
           projects := projects d;
           resources :=
             add_resource "Oluleye Philip" "UX Designer" 0 "CRM System"
               (add_resource "Akinleye Tolu" "Senior Developer" 20 "Mobile Banking App"
                  (add_resource "Benjamin Godswill" "Project Manager" 0
                     "E-commerce Platform" (resources d))) |}
    end in
  Ok d.

(** ** The scripts of the dashboard page *)

(** [loadResourcesData]: the locals [statusClass] and [statusText] computed
    for a resource.  The card renders the class, on its utilization figure;
    the text is assigned and appears nowhere in the card. *)
Definition resource_status (availability : Z) : string * string :=
  if availability <=? 20 then ("availability-low", "Fully Allocated")%string
  else if availability <=? 50 then ("availability-medium", "Partially Available")%string
  else ("availability-high", "Available")%string.

(** [loadDashboardData]: the class of a row of the resource table. *)
Definition availability_class (availability : Z) : string :=
  if availability <=? 20 then "availability-low"%string
  else if availability <=? 50 then "availability-medium"%string
  else "availability-high"%string.

(** The class that a resource card renders, on its utilization figure:
    [statusClass]. *)
Definition card_class (r : Resource.t) : string :=
  fst (resource_status (Resource.availability r)).

(** The classes on the two pages, in the order of the listing: the resource
    page renders a card for every resource, the dashboard table a row for
    each of [resources.data.slice(0, 5)]. *)
Definition card_classes (rs : list Resource.t) : list string :=
  map card_class rs.

Definition dashboard_classes (rs : list Resource.t) : list string :=
  map (fun r => availability_class (Resource.availability r)) (take 5 rs).

(** The class of a project's status badge, in [loadDashboardData] and in
    [loadProjectsData]. *)
Definition dashboard_badge (status : string) : string :=
  if String.eqb status "active" then "status-active"%string
  else "status-completed"%string.

Definition projects_badge (status : string) : string :=
  if String.eqb status "active" then "status-active"%string
  else if String.eqb status "completed" then "status-completed"%string
  else "status-planning"%string.

(** ** Well-formed states *)

(** What the engine guarantees of the users: unique emails, and unique
    keys that start at 1. *)
Definition store_ok (d : db) : Prop :=
  unique_emails (users d) /\
  NoDup (map User.id (users d)) /\
  Forall (fun u => 1 <= User.id u) (users d).

(** The session, if it names a user, names one that exists. *)
Definition session_ok (st : state) : Prop :=
  forall uid, session st !! "user_id" = Some uid ->
    exists u, u ∈ users (database st) /\ User.id u = uid.

(** The werkzeug contract: a password verifies against its own hash. *)
Definition hash_correct `{Runtime} : Prop :=
  forall salt password,
    check_password_hash (generate_password_hash salt password) (JStr password) = Ok true.

(** A runtime that keeps the password as it is, whatever the salt. *)
Definition plain_runtime : Runtime := {|
  generate_password_hash salt password := password;
  check_password_hash h password :=
    match password with
    | JStr p => Ok (String.eqb h p)
    | _ => Raise AttributeError
    end;
  isoformat_datetime t := pretty t;
  isoformat_date d := pretty d
|}.

(** A registration with the position left out. *)
Definition ada : register_data :=
  {| reg_name := Some "Ada"%string; reg_email := Some "ada@example.com"%string;
     reg_password := Some "pw"%string; reg_position := None |}.

(** * Proofs *)

(** ** Binary64 arithmetic *)

Section Float.


Lemma digits2_pos_bounds (p : positive) :
  2 ^ (Zpos (digits2_pos p) - 1) <= Zpos p < 2 ^ Zpos (digits2_pos p).
Proof.
  induction p as [p IH|p IH|]; cbn [digits2_pos].
  - rewrite Pos2Z.inj_succ, Z.pow_succ_r by lia.
    replace (Z.succ (Zpos (digits2_pos p)) - 1) with (Z.succ (Zpos (digits2_pos p) - 1)) by lia.
    rewrite Z.pow_succ_r by lia. lia.
  - rewrite Pos2Z.inj_succ, Z.pow_succ_r by lia.
    replace (Z.succ (Zpos (digits2_pos p)) - 1) with (Z.succ (Zpos (digits2_pos p) - 1)) by lia.
    rewrite Z.pow_succ_r by lia. lia.
  - cbn. lia.
Qed.

Lemma Zdigits2_bounds (m : Z) :
  0 < m -> 2 ^ (Zdigits2 m - 1) <= m < 2 ^ Zdigits2 m.
Proof. destruct m as [|p|p]; try lia. intros _. apply digits2_pos_bounds. Qed.

Lemma Zdigits2_nonneg (m : Z) : 0 <= Zdigits2 m.
Proof. destruct m; cbn; lia. Qed.

Lemma Zdigits2_le (m : Z) (k : Z) : 0 <= k -> 0 <= m < 2 ^ k -> Zdigits2 m <= k.
Proof.
  intros Hk [H0 Hm]. destruct (Z.eq_dec m 0) as [->|]; [cbn; lia|].
  destruct (Zdigits2_bounds m) as [Hlo _]; [lia|].
  destruct (Z.le_gt_cases (Zdigits2 m) k) as [|Hgt]; [done|].
  assert (2 ^ k <= 2 ^ (Zdigits2 m - 1)) by (apply Z.pow_le_mono_r; lia). lia.
Qed.

Lemma Zdigits2_ge (m : Z) (k : Z) : 0 <= k -> 2 ^ k <= m -> k + 1 <= Zdigits2 m.
Proof.
  intros Hk Hm. assert (0 < m) by (pose proof (Z.pow_pos_nonneg 2 k); lia).
  destruct (Zdigits2_bounds m) as [_ Hhi]; [lia|].
  destruct (Z.le_gt_cases (k + 1) (Zdigits2 m)) as [|Hgt]; [done|].
  assert (2 ^ Zdigits2 m <= 2 ^ k) by (apply Z.pow_le_mono_r; lia). lia.
Qed.

(** Iterating [f] a positive number of times, with an invariant that counts
    the steps. *)
Lemma iter_pos_invariant {A} (f : A -> A) (P : Z -> A -> Prop) :
  (forall k x, 0 <= k -> P k x -> P (k + 1) (f x)) ->
  forall p k x, 0 <= k -> P k x -> P (k + Zpos p) (SpecFloat.iter_pos f p x).
Proof.
  intros Hstep. induction p as [p IH|p IH|]; intros k x Hk HP; cbn [SpecFloat.iter_pos].
  - replace (k + Zpos p~1) with ((k + 1 + Zpos p) + Zpos p) by lia.
    apply IH; [lia|]. apply IH; [lia|]. by apply Hstep.
  - replace (k + Zpos p~0) with ((k + Zpos p) + Zpos p) by lia.
    apply IH; [lia|]. by apply IH.
  - by apply Hstep.
Qed.


Lemma shr_1_m (r : shr_record) : 0 <= shr_m r -> shr_m (shr_1 r) = shr_m r / 2.
Proof.
  destruct r as [m b s]. cbn [shr_m]. intros Hm.
  destruct m as [|[p|p|]|]; try lia; cbn [shr_1 shr_m].
  - reflexivity.
  - apply Z.div_unique with 1; lia.
  - apply Z.div_unique with 0; lia.
  - reflexivity.
Qed.

Lemma shr_1_loc (r : shr_record) :
  0 <= shr_m r ->
  loc_of_shr_record (shr_1 r) =
    match Z.odd (shr_m r), loc_of_shr_record r with
    | false, loc_Exact => loc_Exact
    | false, loc_Inexact _ => loc_Inexact Lt
    | true, loc_Exact => loc_Inexact Eq
    | true, loc_Inexact _ => loc_Inexact Gt
    end.
Proof.
  destruct r as [m b s]. cbn [shr_m]. intros Hm.
  destruct m as [|[p|p|]|]; try lia; destruct b, s; reflexivity.
Qed.

Lemma shr_1_inbetween (N D : Z) (r : shr_record) :
  0 < D -> 0 <= shr_m r ->
  inbetween N D (shr_m r) (loc_of_shr_record r) ->
  inbetween N (D * 2) (shr_m (shr_1 r)) (loc_of_shr_record (shr_1 r)).
Proof.
  intros HD Hm. rewrite shr_1_m, shr_1_loc by done.
  pose proof (Z.div_mod (shr_m r) 2 ltac:(lia)) as Hdm.
  rewrite (Zmod_odd (shr_m r)) in Hdm.
  generalize dependent (shr_m r / 2). intros h Hdm.
  destruct (Z.odd (shr_m r)), (loc_of_shr_record r) as [|[]]; unfold inbetween; nia.
Qed.

(** *** Rounding an exact quotient to the nearest integer, ties to even *)

Lemma round_half_even_div_nearest (N D : Z) :
  0 < D -> nearest_even N D (round_half_even_div N D).
Proof.
  intros HD. unfold round_half_even_div, nearest_even.
  pose proof (Z.div_mod N D ltac:(lia)) as Hdm.
  pose proof (Z.mod_pos_bound N D HD) as Hr.
  generalize dependent (N mod D). generalize dependent (N / D). intros q r Hdm Hr.
  destruct (Z.compare_spec (2 * r) D) as [He|Hl|Hg].
  - destruct (Z.even q) eqn:Hev.
    + right. split; [left; nia|done].
    + right. split; [right; nia|].
      rewrite Z.even_add, Hev. reflexivity.
  - left. nia.
  - left. nia.
Qed.

Lemma nearest_even_unique (N D z z' : Z) :
  0 < D -> nearest_even N D z -> nearest_even N D z' -> z = z'.
Proof.
  unfold nearest_even. intros HD Hz Hz'.
  destruct (Z.eq_dec z z') as [|Hne]; [done|exfalso].
  assert (Hodd : forall x y, Z.even x = true -> Z.even y = true -> x - y <> 1 /\ y - x <> 1).
  { intros x y Hx Hy. apply Z.even_spec in Hx as [i ->], Hy as [j ->]. lia. }
  destruct Hz as [Hz|[Hz Hev]], Hz' as [Hz'|[Hz' Hev']].
  - nia.
  - nia.
  - nia.
  - destruct (Hodd z z' Hev Hev'). nia.
Qed.

Lemma round_half_even_div_unique (N D z : Z) :
  0 < D -> nearest_even N D z -> round_half_even_div N D = z.
Proof.
  intros HD Hz. apply (nearest_even_unique N D); [done| |done].
  by apply round_half_even_div_nearest.
Qed.

Lemma round_half_even_div_scale (N D c : Z) :
  0 < D -> 0 < c -> round_half_even_div (N * c) (D * c) = round_half_even_div N D.
Proof.
  intros HD Hc. apply round_half_even_div_unique; [nia|].
  destruct (round_half_even_div_nearest N D HD) as [Hz|[Hz Hev]].
  - left. nia.
  - right. split; [nia|done].
Qed.

Lemma round_half_even_div_exact (x D : Z) :
  0 < D -> round_half_even_div (x * D) D = x.
Proof. intros HD. apply round_half_even_div_unique; [done|]. left. nia. Qed.

Lemma round_half_even_div_opp (N D : Z) :
  0 < D -> round_half_even_div (- N) D = - round_half_even_div N D.
Proof.
  intros HD. apply round_half_even_div_unique; [done|].
  destruct (round_half_even_div_nearest N D HD) as [Hz|[Hz Hev]].
  - left. nia.
  - right. split; [nia|]. by rewrite Z.even_opp.
Qed.

Lemma round_half_even_div_small (N D : Z) :
  0 <= 2 * N < D -> round_half_even_div N D = 0.
Proof. intros HN. apply round_half_even_div_unique; [lia|]. left. lia. Qed.

Lemma round_half_even_div_mono_bound (N D : Z) :
  0 < D -> 0 <= N -> 0 <= round_half_even_div N D /\ round_half_even_div N D * D <= N + D.
Proof.
  intros HD HN. destruct (round_half_even_div_nearest N D HD) as [Hz|[Hz Hev]]; nia.
Qed.

(** Rounding twice: first to a multiple of [1 / P], then to an integer.
    When the grid is finer than [1 / D] the first rounding cannot reach or
    cross a half-integer that the exact quotient is not already on. *)
Lemma round_half_even_div_twice (N D P : Z) :
  0 < D -> D < P -> Z.even P = true ->
  round_half_even_div (round_half_even_div (N * P) D) P = round_half_even_div N D.
Proof.
  intros HD HP Hev. apply Z.even_spec in Hev as [h ->].
  apply round_half_even_div_unique; [lia|].
  pose proof (round_half_even_div_nearest (N * (2 * h)) D HD) as Hm.
  set (m := round_half_even_div (N * (2 * h)) D) in *.
  destruct (round_half_even_div_nearest N D HD) as [Hz|[Hz Hez]];
    set (z := round_half_even_div N D) in *.
  - left. destruct Hm as [Hm|[Hm _]]; nia.
  - right. split; [|done].
    assert (m = (2 * z + 1) * h \/ m = (2 * z - 1) * h) as Hmz.
    { destruct Hz as [Hz|Hz]; [left|right];
        (apply (nearest_even_unique (N * (2 * h)) D); [done|done|]); left; nia. }
    nia.
Qed.

Lemma loc_of_shr_record_of_loc (m : Z) (l : location) :
  loc_of_shr_record (shr_record_of_loc m l) = l.
Proof. by destruct l as [|[]]. Qed.

Lemma shr_m_shr_record_of_loc (m : Z) (l : location) :
  shr_m (shr_record_of_loc m l) = m.
Proof. by destruct l as [|[]]. Qed.

(** Shifting right by [k] bits divides the mantissa by [2 ^ k] and keeps
    track of where the exact value lies. *)
Lemma shr_inbetween (N D m : Z) (l : location) (e k : Z) :
  0 < D -> 0 <= m -> inbetween N D m l ->
  exists r,
    shr (shr_record_of_loc m l) e k = (r, e + Z.max k 0) /\
    shr_m r = m / 2 ^ Z.max k 0 /\
    inbetween N (D * 2 ^ Z.max k 0) (shr_m r) (loc_of_shr_record r).
Proof.
  intros HD Hm Hin. destruct k as [|p|p]; cbn [shr].
  - exists (shr_record_of_loc m l).
    rewrite loc_of_shr_record_of_loc, shr_m_shr_record_of_loc.
    change (Z.max 0 0) with 0. rewrite Z.add_0_r, Z.pow_0_r, Z.div_1_r, Z.mul_1_r. done.
  - exists (SpecFloat.iter_pos shr_1 p (shr_record_of_loc m l)).
    replace (Z.max (Zpos p) 0) with (Zpos p) by lia. split; [done|].
    pose (P := fun (j : Z) (r : shr_record) =>
                 0 <= shr_m r /\ shr_m r = m / 2 ^ j /\
                 inbetween N (D * 2 ^ j) (shr_m r) (loc_of_shr_record r)).
    assert (P (0 + Zpos p) (SpecFloat.iter_pos shr_1 p (shr_record_of_loc m l))) as HP.
    { apply iter_pos_invariant; [|lia|].
      - intros j r Hj (Hr & Hrm & Hrin). unfold P.
        assert (0 < 2 ^ j) by (apply Z.pow_pos_nonneg; lia).
        rewrite shr_1_m by done. split; [apply Z.div_pos; lia|]. split.
        + rewrite Hrm, Z.div_div, Z.pow_add_r by lia. reflexivity.
        + rewrite <- (shr_1_m r) by done.
          rewrite Z.pow_add_r, Z.pow_1_r, Z.mul_assoc by lia.
          apply shr_1_inbetween; [lia|done|done].
      - unfold P. rewrite loc_of_shr_record_of_loc, shr_m_shr_record_of_loc.
        rewrite Z.pow_0_r, Z.div_1_r, Z.mul_1_r. done. }
    rewrite Z.add_0_l in HP. destruct HP as (_ & ? & ?). done.
  - exists (shr_record_of_loc m l).
    rewrite loc_of_shr_record_of_loc, shr_m_shr_record_of_loc.
    replace (Z.max (Zneg p) 0) with 0 by lia.
    rewrite Z.add_0_r, Z.pow_0_r, Z.div_1_r, Z.mul_1_r. done.
Qed.

(** The location computed from a remainder is that of the exact quotient. *)
Lemma new_location_inbetween (N D : Z) :
  0 < D -> inbetween N D (N / D) (new_location D (N mod D)).
Proof.
  intros HD. pose proof (Z.div_mod N D ltac:(lia)) as Hdm.
  pose proof (Z.mod_pos_bound N D HD) as Hr.
  generalize dependent (N mod D). generalize dependent (N / D). intros q r Hdm Hr.
  unfold new_location, new_location_even, new_location_odd.
  destruct (Z.even D) eqn:Hev.
  - destruct (Z.eqb_spec r 0) as [->|Hr0]; [cbn; lia|].
    destruct (Z.compare_spec (2 * r) D); cbn; nia.
  - destruct (Z.eqb_spec r 0) as [->|Hr0]; [cbn; lia|].
    assert (2 * r <> D).
    { intros <-. rewrite Z.even_mul in Hev. discriminate. }
    destruct (Z.compare_spec (2 * r + 1) D); cbn; nia.
Qed.

Lemma round_nearest_even_inbetween (N D m : Z) (l : location) :
  0 < D -> inbetween N D m l ->
  round_nearest_even m l = round_half_even_div N D.
Proof.
  intros HD Hin. symmetry. apply round_half_even_div_unique; [done|].
  unfold nearest_even. destruct l as [|[]]; cbn in *.
  - left. nia.
  - destruct (Z.even m) eqn:Hev.
    + right. split; [left; nia|done].
    + right. split; [right; nia|]. rewrite Z.even_add, Hev. reflexivity.
  - left. nia.
  - left. nia.
Qed.

Lemma fexp_binary64 (x : Z) : fexp prec emax x = Z.max (x - 53) (-1074).
Proof. reflexivity. Qed.

Lemma round_nearest_even_range (m : Z) (l : location) :
  m <= round_nearest_even m l <= m + 1.
Proof. destruct l as [|[]]; cbn; try lia. destruct (Z.even m); lia. Qed.

Lemma binary_round_aux_spec (s : bool) (N D mx ex : Z) (lx : location) :
  0 < D -> 0 <= mx -> inbetween N D mx lx ->
  let k := Z.max (fexp prec emax (Zdigits2 mx + ex) - ex) 0 in
  binary_round_aux prec emax s mx ex lx =
    rounded s (round_half_even_div N (D * 2 ^ k)) (ex + k) /\
  0 <= round_half_even_div N (D * 2 ^ k) <= 2 ^ 53.
Proof.
  intros HD Hmx Hin k. unfold binary_round_aux, shr_fexp.
  destruct (shr_inbetween N D mx lx ex (fexp prec emax (Zdigits2 mx + ex) - ex) HD Hmx Hin)
    as (r1 & -> & Hm1 & Hin1). fold k in Hm1, Hin1 |- *.
  assert (0 < 2 ^ k) as Hk by (apply Z.pow_pos_nonneg; lia).
  rewrite (round_nearest_even_inbetween N (D * 2 ^ k)) by (done || nia).
  pose proof (round_nearest_even_range (shr_m r1) (loc_of_shr_record r1)) as Hrange.
  rewrite (round_nearest_even_inbetween N (D * 2 ^ k)) in Hrange by (done || nia).
  set (m2 := round_half_even_div N (D * 2 ^ k)) in *.
  assert (0 <= shr_m r1 < 2 ^ 53) as Hm1b.
  { rewrite Hm1. split; [apply Z.div_pos; lia|].
    apply Z.div_lt_upper_bound; [done|].
    destruct (Z.eq_dec mx 0) as [->|]; [lia|].
    destruct (Zdigits2_bounds mx) as [_ Hhi]; [lia|].
    rewrite <- Z.pow_add_r by lia.
    eapply Z.lt_le_trans; [exact Hhi|]. apply Z.pow_le_mono_r; [lia|].
    unfold k. rewrite fexp_binary64. lia. }
  assert (-1074 <= ex + k) as He1 by (unfold k; rewrite fexp_binary64; lia).
  split; [|lia].
  assert (inbetween m2 1 m2 loc_Exact) as Hin2 by (cbn; lia).
  destruct (shr_inbetween m2 1 m2 loc_Exact (ex + k)
              (fexp prec emax (Zdigits2 m2 + (ex + k)) - (ex + k)) ltac:(lia) ltac:(lia) Hin2)
    as (r2 & -> & Hm3 & _).
  rewrite fexp_binary64 in Hm3 |- *. unfold rounded.
  destruct (Z.eqb_spec m2 0) as [Hz|Hnz].
  - rewrite Hz in Hm3 |- *. rewrite Z.div_0_l in Hm3 by (apply Z.pow_nonzero; lia).
    by rewrite Hm3.
  - destruct (Z.ltb_spec m2 (2 ^ 53)) as [Hlt|Hge].
    + assert (Zdigits2 m2 <= 53) by (apply Zdigits2_le; lia).
      pose proof (Zdigits2_nonneg m2).
      replace (Z.max (Z.max (Zdigits2 m2 + (ex + k) - 53) (-1074) - (ex + k)) 0) with 0 in * by lia.
      rewrite Z.pow_0_r, Z.div_1_r in Hm3. rewrite Hm3, Z.add_0_r.
      destruct m2 as [|p|p]; try lia. reflexivity.
    + assert (m2 = 2 ^ 53) as Hm2 by lia.
      assert (Zdigits2 m2 = 54) as Hd by (rewrite Hm2; reflexivity).
      rewrite Hd in Hm3 |- *.
      replace (Z.max (Z.max (54 + (ex + k) - 53) (-1074) - (ex + k)) 0) with 1 in * by lia.
      rewrite Z.pow_1_r in Hm3. rewrite Hm3, Hm2. reflexivity.
Qed.

Lemma div_eucl_div_mod (a b : Z) : Z.div_eucl a b = (a / b, a mod b).
Proof. unfold Z.div, Z.modulo. by destruct (Z.div_eucl a b). Qed.

(** The quotient of two positive integers, as [SFdiv] computes it. *)
Lemma SFdiv_exact_of_int (sa : bool) (a b : positive) :
  let s := - Z.min (fexp prec emax (Zdigits2 (Zpos a) - Zdigits2 (Zpos b))) 0 in
  let q := Zpos a * 2 ^ s / Zpos b in
  let k := Z.max (fexp prec emax (Zdigits2 q - s) + s) 0 in
  let m := round_half_even_div (Zpos a * 2 ^ s) (Zpos b * 2 ^ k) in
  SFdiv prec emax (S754_finite sa a 0) (S754_finite false b 0) = rounded sa m (k - s) /\
  0 <= m <= 2 ^ 53.
Proof.
  intros s q k m. unfold SFdiv, SFdiv_core_binary.
  rewrite !Z.add_0_r, Z.sub_0_r, Z.sub_0_l. fold s.
  assert (0 <= s) as Hs by (unfold s; lia).
  assert (match s with
          | 0 => Zpos a
          | Zpos _ => Z.shiftl (Zpos a) s
          | Zneg _ => 0
          end = Zpos a * 2 ^ s) as ->.
  { destruct s as [|p|p] eqn:Es; [lia| |lia]. by rewrite Z.shiftl_mul_pow2. }
  rewrite div_eucl_div_mod. fold q.
  assert (0 < 2 ^ s) by (apply Z.pow_pos_nonneg; lia).
  assert (0 <= q) by (apply Z.div_pos; lia).
  pose proof (new_location_inbetween (Zpos a * 2 ^ s) (Zpos b) ltac:(lia)) as Hin.
  fold q in Hin.
  destruct (binary_round_aux_spec (xorb sa false) _ _ _ (- s) _ (Pos2Z.is_pos b) H0 Hin)
    as [Heq Hb].
  replace (Z.max (fexp prec emax (Zdigits2 q + - s) - - s) 0) with k in Heq, Hb
    by (unfold k; rewrite !fexp_binary64; lia).
  fold m in Heq, Hb. rewrite xorb_false_r in Heq.
  replace (- s + k) with (k - s) in Heq by lia.
  replace (Z.min (fexp prec emax (Zdigits2 (Zpos a) - Zdigits2 (Zpos b))) 0) with (- s)
    by (unfold s; lia).
  rewrite xorb_false_r. done.
Qed.

(** [round] of a rounded value with a negative exponent. *)
Lemma round_rounded (s : bool) (m E : Z) :
  0 <= m <= 2 ^ 53 -> 1 <= E ->
  round (rounded s m (- E)) = Ok (cond_Zopp s (round_half_even_div m (2 ^ E))).
Proof.
  intros Hm HE. unfold rounded.
  assert (0 < 2 ^ E) as HP by (apply Z.pow_pos_nonneg; lia).
  destruct (Z.eqb_spec m 0) as [->|Hnz].
  - cbn [round]. rewrite round_half_even_div_small by lia. by destruct s.
  - destruct (Z.ltb_spec m (2 ^ 53)) as [Hlt|Hge].
    + destruct (Z.leb_spec (- E) 971); [|lia].
      destruct m as [|p|p]; try lia. destruct E as [|pe|pe]; try lia.
      reflexivity.
    + destruct (Z.leb_spec (- E + 1) 971); [|lia].
      assert (m = 2 ^ 53) as -> by lia. cbn [round]. do 2 f_equal.
      change (Zpos (Z.to_pos (2 ^ 53 / 2))) with (2 ^ 52).
      destruct (Z.eq_dec E 1) as [->|HE1].
      * reflexivity.
      * destruct (- E + 1) as [|pe|pe] eqn:HeE; try lia.
        replace (2 ^ E) with (2 ^ Zpos pe * 2)
          by (rewrite Z.mul_comm, <- Z.pow_succ_r by lia; f_equal; lia).
        change (2 ^ 53) with (2 ^ 52 * 2).
        rewrite round_half_even_div_scale; [done| |lia]. apply Z.pow_pos_nonneg; lia.
Qed.

(** *** True division followed by [round]

    For a dividend below [2 ^ 52] in magnitude the float quotient is
    close enough to the exact one for [round] to agree with exact
    rounding. *)
Lemma truediv_round_pos (sa : bool) (a b : positive) :
  Zpos a < 2 ^ 52 ->
  exists f, SFdiv prec emax (S754_finite sa a 0) (S754_finite false b 0) = f /\
    (forall s', f <> S754_infinity s') /\
    round f = Ok (cond_Zopp sa (round_half_even_div (Zpos a) (Zpos b))).
Proof.
  intros Ha.
  destruct (SFdiv_exact_of_int sa a b) as [Heq Hm]. cbv zeta in Heq, Hm.
  rewrite Heq. clear Heq. eexists; split; [reflexivity|].
  destruct (Zdigits2_bounds (Zpos a) ltac:(lia)) as [Ha1 Ha2].
  destruct (Zdigits2_bounds (Zpos b) ltac:(lia)) as [Hb1 Hb2].
  assert (Zdigits2 (Zpos a) <= 52) as Hd1 by (apply Zdigits2_le; lia).
  assert (1 <= Zdigits2 (Zpos a)) as Hd1' by (apply (Zdigits2_ge _ 0); lia).
  assert (1 <= Zdigits2 (Zpos b)) as Hd2 by (apply (Zdigits2_ge _ 0); lia).
  set (d1 := Zdigits2 (Zpos a)) in *. set (d2 := Zdigits2 (Zpos b)) in *.
  rewrite !fexp_binary64 in Hm |- *.
  set (s := - Z.min (Z.max (d1 - d2 - 53) (-1074)) 0) in *.
  assert (s = Z.min (53 + d2 - d1) 1074) as Hs by lia.
  assert (2 <= s <= 1074) as Hs' by lia.
  assert (0 < 2 ^ s) as Hps by (apply Z.pow_pos_nonneg; lia).
  set (q := Zpos a * 2 ^ s / Zpos b) in *.
  assert (0 <= q) as Hq0 by (apply Z.div_pos; lia).
  assert (Zpos a * 2 ^ s < 2 ^ (d1 + s)) as Has.
  { rewrite Z.pow_add_r by lia. nia. }
  assert (2 ^ (d2 - 1) * 2 = 2 ^ d2) as Hd2e.
  { rewrite Z.mul_comm, <- Z.pow_succ_r by lia. f_equal. lia. }
  assert (q < 2 ^ 54) as Hq54.
  { apply Z.div_lt_upper_bound; [lia|].
    eapply Z.lt_le_trans; [exact Has|].
    transitivity (2 ^ (d2 - 1) * 2 ^ 54); [|nia].
    rewrite <- Z.pow_add_r by lia. apply Z.pow_le_mono_r; lia. }
  assert (Zdigits2 q <= 54) as Hdq by (apply Zdigits2_le; lia).
  pose proof (Zdigits2_nonneg q) as Hdq0.
  set (k := Z.max (Z.max (Zdigits2 q - s - 53) (-1074) + s) 0) in *.
  assert (0 <= k <= 1) as Hk by lia.
  set (E := s - k).
  assert (1 <= E) as HE by lia.
  assert (0 < 2 ^ E) as HPE by (apply Z.pow_pos_nonneg; lia).
  assert (0 < 2 ^ k) as HPk by (apply Z.pow_pos_nonneg; lia).
  replace (k - s) with (- E) by lia.
  assert (round_half_even_div (Zpos a * 2 ^ s) (Zpos b * 2 ^ k)
          = round_half_even_div (Zpos a * 2 ^ E) (Zpos b)) as Hscale.
  { replace (2 ^ s) with (2 ^ E * 2 ^ k) by (rewrite <- Z.pow_add_r by lia; f_equal; lia).
    rewrite Z.mul_assoc. apply round_half_even_div_scale; lia. }
  rewrite Hscale in Hm |- *.
  set (m := round_half_even_div (Zpos a * 2 ^ E) (Zpos b)) in *.
  split.
  { intros s'. unfold rounded.
    destruct (m =? 0); [done|]. destruct (m <? 2 ^ 53).
    - destruct (Z.leb_spec (- E) 971); [done|lia].
    - destruct (Z.leb_spec (- E + 1) 971); [done|lia]. }
  rewrite round_rounded by done. do 2 f_equal.
  assert (Zpos b < 2 ^ E \/ (2 ^ 1074 <= Zpos b /\ E = 1074)) as [Hsmall|[Hbig HE1074]].
  { destruct (Z.le_gt_cases (53 + d2 - d1) 1074) as [Hn|Hsub].
    - left. eapply Z.lt_le_trans; [exact Hb2|]. apply Z.pow_le_mono_r; lia.
    - assert (q < 2 ^ 53) as Hq53.
      { apply Z.div_lt_upper_bound; [lia|].
        eapply Z.lt_le_trans; [exact Has|].
        transitivity (2 ^ (d2 - 1) * 2 ^ 53); [|nia].
        rewrite <- Z.pow_add_r by lia. apply Z.pow_le_mono_r; lia. }
      assert (Zdigits2 q <= 53) by (apply Zdigits2_le; lia).
      assert (E = 1074) by lia.
      destruct (Z.lt_ge_cases (Zpos b) (2 ^ E)); [by left|right]. split; [congruence|done]. }
  - unfold m. apply round_half_even_div_twice; [lia|done|].
    replace E with (Z.succ (E - 1)) by lia. rewrite Z.pow_succ_r by lia.
    rewrite Z.even_mul. reflexivity.
  - assert (2 ^ E <= Zpos b) as HbE by (rewrite HE1074; exact Hbig).
    assert (2 ^ 54 <= 2 ^ E) as Hlt by (apply Z.pow_le_mono_r; lia).
    destruct (round_half_even_div_mono_bound (Zpos a * 2 ^ E) (Zpos b)) as [Hm0 Hmb]; [lia|lia|].
    fold m in Hm0, Hmb.
    assert (Zpos a * 2 ^ E <= Zpos a * Zpos b) as Hab
      by (apply Z.mul_le_mono_nonneg_l; lia).
    assert (m <= Zpos a + 1) as Hma.
    { apply Z.lt_succ_r. apply (Z.mul_lt_mono_pos_r (Zpos b)); lia. }
    rewrite (round_half_even_div_small (Zpos a) (Zpos b)) by lia.
    apply round_half_even_div_small. lia.
Qed.
End Float.

(** [round(a / b)] for a dividend below [2 ^ 52] in magnitude: no exception,
    and the exact quotient rounded to nearest, ties to even. *)
Lemma truediv_round (a b : Z) :
  0 < b -> Z.abs a < 2 ^ 52 ->
  (q ← truediv a b; round q) = Ok (round_half_even_div a b).
Proof.
  intros Hb Ha. unfold truediv.
  destruct (Z.eqb_spec b 0) as [|_]; [lia|].
  destruct b as [|pb|pb]; try lia.
  destruct a as [|pa|pa]; cbn [exact_of_int].
  - cbn. by rewrite round_half_even_div_small by lia.
  - destruct (truediv_round_pos false pa pb) as (f & -> & Hinf & Hr); [lia|].
    destruct f; solve [done | by edestruct Hinf].
  - destruct (truediv_round_pos true pa pb) as (f & -> & Hinf & Hr); [lia|].
    change (Zneg pa) with (- Zpos pa). rewrite round_half_even_div_opp by lia.
    destruct f; solve [done | by edestruct Hinf].
Qed.

(** The only exception of true division by a positive divisor is overflow. *)
Lemma truediv_raise (a b : Z) (e : exn) :
  0 < b -> truediv a b = Raise e -> e = OverflowError.
Proof.
  intros Hb. unfold truediv. destruct (Z.eqb_spec b 0); [lia|].
  destruct (SFdiv _ _ _ _); congruence.
Qed.

(** A quotient of integers is never a NaN, so [round] can only overflow. *)
Lemma SFdiv_exact_not_nan (a : Z) (b : positive) :
  SFdiv prec emax (exact_of_int a) (exact_of_int (Zpos b)) <> S754_nan.
Proof.
  destruct a as [|pa|pa]; cbn [exact_of_int].
  - discriminate.
  - rewrite (proj1 (SFdiv_exact_of_int false pa b)). unfold rounded.
    repeat match goal with |- context [if ?c then _ else _] => destruct c end;
      discriminate.
  - rewrite (proj1 (SFdiv_exact_of_int true pa b)). unfold rounded.
    repeat match goal with |- context [if ?c then _ else _] => destruct c end;
      discriminate.
Qed.

Lemma truediv_round_raise (a b : Z) (e : exn) :
  0 < b -> (q ← truediv a b; round q) = Raise e -> e = OverflowError.
Proof.
  intros Hb. destruct (truediv a b) as [f|e'] eqn:Hdiv; cbn.
  - unfold truediv in Hdiv. destruct (Z.eqb_spec b 0); [lia|].
    destruct b as [|pb|pb]; try lia.
    pose proof (SFdiv_exact_not_nan a pb) as Hnan.
    destruct (SFdiv _ _ _ _); try discriminate; injection Hdiv as <-; cbn; congruence.
  - intros [= <-]. by apply (truediv_raise a b).
Qed.

(** A quotient below [2 ^ 1000] in magnitude does not overflow. *)
Lemma truediv_round_returns (a b : Z) :
  0 < b -> Z.abs a <= 2 ^ 1000 * b ->
  exists z, (q ← truediv a b; round q) = Ok z.
Proof.
  intros Hb Ha. unfold truediv. destruct (Z.eqb_spec b 0) as [|_]; [lia|].
  destruct b as [|pb|pb]; try lia.
  assert (forall sa pa, Zpos pa <= 2 ^ 1000 * Zpos pb ->
            exists f, SFdiv prec emax (S754_finite sa pa 0) (S754_finite false pb 0) = f /\
                      (forall s', f <> S754_infinity s') /\ f <> S754_nan) as Hfin.
  { intros sa pa Hpa. destruct (SFdiv_exact_of_int sa pa pb) as [Heq Hm].
    cbv zeta in Heq, Hm. rewrite Heq. clear Heq. eexists. split; [reflexivity|].
    rewrite !fexp_binary64 in Hm |- *.
    set (s := - Z.min (Z.max (Zdigits2 (Zpos pa) - Zdigits2 (Zpos pb) - 53) (-1074)) 0) in *.
    assert (0 <= s) as Hs by lia.
    assert (0 < 2 ^ s) as Hps by (apply Z.pow_pos_nonneg; lia).
    set (q := Zpos pa * 2 ^ s / Zpos pb) in *.
    assert (0 <= q) as Hq0 by (apply Z.div_pos; lia).
    assert (q < 2 ^ (1001 + s)) as Hq.
    { apply Z.div_lt_upper_bound; [lia|].
      rewrite Z.pow_add_r by lia. change (2 ^ 1001) with (2 * 2 ^ 1000). nia. }
    assert (Zdigits2 q <= 1001 + s) as Hdq by (apply Zdigits2_le; lia).
    pose proof (Zdigits2_nonneg q) as Hdq0.
    set (k := Z.max (Z.max (Zdigits2 q - s - 53) (-1074) + s) 0) in *.
    assert (k - s <= 948) as Hks by lia.
    unfold rounded. split; [intros s'|];
      repeat match goal with
             | |- context [if ?x <=? ?y then _ else _] => destruct (Z.leb_spec x y)
             | |- context [if ?c then _ else _] => destruct c
             end; try discriminate; lia. }
  destruct a as [|pa|pa]; cbn [exact_of_int].
  - cbn. eauto.
  - destruct (Hfin false pa) as (f & -> & Hinf & Hnan); [lia|].
    destruct f; cbn; eauto; [by edestruct Hinf|done].
  - destruct (Hfin true pa) as (f & -> & Hinf & Hnan); [lia|].
    destruct f; cbn; eauto; [by edestruct Hinf|done].
Qed.

Lemma foldl_add_acc (acc : Z) (xs : list Z) :
  foldl Z.add acc xs = acc + foldl Z.add 0 xs.
Proof.
  revert acc. induction xs as [|x xs IH]; intros acc; cbn [foldl]; [lia|].
  rewrite (IH (acc + x)), (IH (0 + x)). lia.
Qed.

Lemma sum_cons (x : Z) (xs : list Z) : sum (x :: xs) = x + sum xs.
Proof. unfold sum. cbn [foldl]. by rewrite foldl_add_acc. Qed.

Lemma total_utilization_cons (r : Resource.t) (rs : list Resource.t) :
  total_utilization (r :: rs) = 100 - Resource.availability r + total_utilization rs.
Proof. unfold total_utilization. cbn [map]. apply sum_cons. Qed.

Lemma total_utilization_bound (B : Z) (rs : list Resource.t) :
  Forall (fun r => Z.abs (Resource.availability r) <= B) rs ->
  Z.abs (total_utilization rs) <= (B + 100) * len rs.
Proof.
  unfold len. induction 1 as [|r rs Hr _ IH]; [cbn; lia|].
  rewrite total_utilization_cons. cbn [length]. lia.
Qed.

(** On operands that a double holds exactly, the quotient of the model is
    the IEEE quotient of the two doubles. *)
Example truediv_agrees_with_float_div :
  Forall (fun ab => truediv (fst ab) (snd ab) = Ok (float_div (fst ab) (snd ab)))
    [(280, 3); (180, 3); (1, 2); (3, 2); (1, 3); (-7, 3); (2 ^ 52 - 1, 7);
     (2 ^ 53 - 1, 2 ^ 53 - 3); (12345678901234, 987654321)].
Proof. repeat constructor; vm_compute; reflexivity. Qed.

(** ** Utilization statistics *)

Section Stats.

Lemma count_nonneg {A} (rows : list A) : 0 <= Query.count rows.
Proof. unfold Query.count. lia. Qed.

Lemma count_filter_cons {A} (cond : A -> bool) (x : A) (rows : list A) :
  Query.count (Query.filter cond (x :: rows)) =
    (if cond x then 1 else 0) + Query.count (Query.filter cond rows).
Proof.
  unfold Query.count, Query.filter. cbn [List.filter].
  destruct (cond x); cbn [length]; lia.
Qed.

Lemma count_cons {A} (x : A) (rows : list A) :
  Query.count (x :: rows) = 1 + Query.count rows.
Proof. unfold Query.count. cbn [length]. lia. Qed.

Lemma resource_stats_unfold (d : db) :
  resource_stats d =
    avg_util ← average_utilization (resources d);
    Ok {| totalResources := Query.count (resources d);
          allocatedResources :=
            Query.count (Query.filter (fun r => Resource.availability r <? 100) (resources d));
          availableResources :=
            Query.count (Query.filter (fun r => Resource.availability r >? 0) (resources d));
          averageUtilization := avg_util;
          overallocated :=
            Query.count (Query.filter (fun r => Resource.availability r <=? 0) (resources d));
          totalProjects := Query.count (projects d) |}.
Proof. unfold resource_stats. by destruct (resources d). Qed.

Lemma resource_stats_Ok (d : db) (s : Stats) :
  resource_stats d = Ok s ->
  totalResources s = Query.count (resources d) /\
  allocatedResources s =
    Query.count (Query.filter (fun r => Resource.availability r <? 100) (resources d)) /\
  availableResources s =
    Query.count (Query.filter (fun r => Resource.availability r >? 0) (resources d)) /\
  overallocated s =
    Query.count (Query.filter (fun r => Resource.availability r <=? 0) (resources d)) /\
  totalProjects s = Query.count (projects d) /\
  average_utilization (resources d) = Ok (averageUtilization s).
Proof.
  rewrite resource_stats_unfold.
  destruct (average_utilization (resources d)) as [avg|e]; cbn; [|discriminate].
  by intros [= <-].
Qed.

Lemma len_pos {A} (x : A) (l : list A) : 0 < len (x :: l).
Proof. unfold len. cbn [length]. lia. Qed.

(** The statistics fail only when the float quotient overflows. *)
Lemma resource_stats_Raise (d : db) (e : exn) :
  resource_stats d = Raise e -> e = OverflowError.
Proof.
  rewrite resource_stats_unfold.
  destruct (average_utilization (resources d)) as [avg|e'] eqn:Havg; cbn; [discriminate|].
  intros [= <-]. unfold average_utilization in Havg.
  destruct (resources d) as [|r rs]; [discriminate|].
  eapply truediv_round_raise; [|exact Havg]. apply len_pos.
Qed.

Lemma average_utilization_exact (rs : list Resource.t) :
  rs <> [] -> Z.abs (total_utilization rs) < 2 ^ 52 ->
  average_utilization rs = Ok (round_half_even_div (total_utilization rs) (len rs)).
Proof.
  intros Hne Hsum. destruct rs as [|r rs]; [done|].
  unfold average_utilization. apply truediv_round; [apply len_pos|done].
Qed.

(** They are returned whenever the sum of the utilizations is below
    [2 ^ 52] in magnitude. *)
Lemma resource_stats_returns (d : db) :
  Z.abs (total_utilization (resources d)) < 2 ^ 52 ->
  exists s, resource_stats d = Ok s.
Proof.
  intros Hsum. rewrite resource_stats_unfold.
  destruct (resources d) as [|r rs] eqn:Hrs.
  - cbn. eauto.
  - rewrite average_utilization_exact by done. cbn. eauto.
Qed.

(** They are returned for all availabilities that a database integer can
    hold. *)
Lemma resource_stats_returns_int64 (d : db) :
  Forall (fun r => Z.abs (Resource.availability r) <= 2 ^ 63) (resources d) ->
  exists s, resource_stats d = Ok s.
Proof.
  intros Hall. rewrite resource_stats_unfold.
  destruct (resources d) as [|r rs] eqn:Hrs; [cbn; eauto|].
  unfold average_utilization.
  destruct (truediv_round_returns (total_utilization (r :: rs)) (len (r :: rs)))
    as [z Hz]; [apply len_pos| |].
  - etransitivity; [by apply total_utilization_bound|].
    apply Z.mul_le_mono_nonneg_r; [unfold len; lia|].
    change (2 ^ 63 + 100 <= 2 ^ 63 * 2 ^ 937). lia.
  - rewrite Hz. cbn. eauto.
Qed.

(** Each availability is in exactly one of the four classes. *)
Lemma four_classes_sum (rs : list Resource.t) :
  Query.count (Query.filter (fun r => Resource.availability r <=? 0) rs)
  + count_partial rs + count_full rs + count_above rs = Query.count rs.
Proof.
  unfold count_partial, count_full, count_above.
  induction rs as [|r rs IH]; [reflexivity|].
  rewrite !count_filter_cons, count_cons.
  destruct (Z.leb_spec (Resource.availability r) 0),
           (Z.leb_spec 1 (Resource.availability r)),
           (Z.leb_spec (Resource.availability r) 99),
           (Z.eqb_spec (Resource.availability r) 100),
           (Z.ltb_spec 100 (Resource.availability r)); cbn [andb]; lia.
Qed.

Lemma count_above_zero (rs : list Resource.t) :
  count_above rs = 0 <-> Forall (fun r => Resource.availability r <= 100) rs.
Proof.
  unfold count_above. induction rs as [|r rs IH].
  - split; [constructor|reflexivity].
  - rewrite count_filter_cons, Forall_cons.
    pose proof (count_nonneg (Query.filter (fun r => 100 <? Resource.availability r) rs)).
    destruct (Z.ltb_spec 100 (Resource.availability r)).
    + split; [lia|]. intros []. lia.
    + rewrite Z.add_0_l, IH. split; [by split|by intros []].
Qed.

Lemma available_overallocated_sum (rs : list Resource.t) :
  Query.count (Query.filter (fun r => Resource.availability r >? 0) rs)
  + Query.count (Query.filter (fun r => Resource.availability r <=? 0) rs)
  = Query.count rs.
Proof.
  induction rs as [|r rs IH]; [reflexivity|].
  rewrite !count_filter_cons, count_cons.
  destruct (Z.gtb_spec (Resource.availability r) 0),
           (Z.leb_spec (Resource.availability r) 0); lia.
Qed.

End Stats.

(** ** The claims about the statistics *)

(** C1, as stated, fails: a resource whose availability is above 100 is
    in none of the three classes.  With the single availability 150 the
    three counts add up to 0 and [totalResources] is 1. *)
Lemma three_classes_miss_above_100 :
  exists s,
    resource_stats (with_resources [resource 1 150]) = Ok s /\
    overallocated s
    + count_partial (resources (with_resources [resource 1 150]))
    + count_full (resources (with_resources [resource 1 150]))
    <> totalResources s.
Proof. eexists. split; [vm_compute; reflexivity|]. vm_compute. discriminate. Qed.

(** C1, amended: for every collection of resources, [overallocated] plus the
    count with availability in 1..99 plus the count with availability 100
    plus the count with availability above 100 equals [totalResources]; the
    first three add up to [totalResources] exactly when no availability is
    above 100. *)
Theorem availability_classes (d : db) (s : Stats) :
  resource_stats d = Ok s ->
  overallocated s + count_partial (resources d) + count_full (resources d)
    + count_above (resources d) = totalResources s /\
  (overallocated s + count_partial (resources d) + count_full (resources d)
     = totalResources s
   <-> Forall (fun r => Resource.availability r <= 100) (resources d)).
Proof.
  intros (Htot & _ & _ & Hover & _)%resource_stats_Ok.
  pose proof (four_classes_sum (resources d)) as Hsum.
  rewrite Htot, Hover. split; [done|].
  rewrite <- count_above_zero. lia.
Qed.

Lemma availability_classes_witness :
  resource_stats seed_db = Ok {| totalResources := 3; allocatedResources := 3;
                                 availableResources := 1; averageUtilization := 93;
                                 overallocated := 2; totalProjects := 3 |} /\
  2 + count_partial (resources seed_db) + count_full (resources seed_db)
    + count_above (resources seed_db) = 3.
Proof.
  assert (resource_stats seed_db
          = Ok {| totalResources := 3; allocatedResources := 3;
                  availableResources := 1; averageUtilization := 93;
                  overallocated := 2; totalProjects := 3 |}) as Hs
    by (vm_compute; reflexivity).
  split; [exact Hs|].
  exact (proj1 (availability_classes seed_db _ Hs)).
Defined.

(** C2, as stated, fails: Python rounds a half to the even neighbour.  With
    availabilities 99 and 100 the utilizations sum to 1, the quotient is
    one half, and the average is 0 where standard rounding gives 1. *)
Lemma average_rounds_half_to_even :
  exists s,
    resource_stats (with_resources [resource 1 99; resource 2 100]) = Ok s /\
    averageUtilization s = 0 /\
    round_half_away_div
      (total_utilization (resources (with_resources [resource 1 99; resource 2 100])))
      (totalResources s) = 1.
Proof. eexists. split; [vm_compute; reflexivity|]. split; reflexivity. Qed.

(** C2, amended: for every non-empty collection of resources whose
    utilizations sum to less than [2 ^ 52] in magnitude, the statistics are
    returned and [averageUtilization] is the exact quotient of that sum by
    [totalResources], rounded to the nearest integer with a half going to
    the even neighbour. *)
Theorem average_round_half_even (d : db) :
  resources d <> [] ->
  Z.abs (total_utilization (resources d)) < 2 ^ 52 ->
  exists s,
    resource_stats d = Ok s /\
    averageUtilization s =
      round_half_even_div (total_utilization (resources d)) (totalResources s).
Proof.
  intros Hne Hsum. destruct (resource_stats_returns d Hsum) as [s Hs].
  exists s. split; [done|].
  apply resource_stats_Ok in Hs as (Htot & _ & _ & _ & _ & Havg).
  rewrite average_utilization_exact in Havg by done.
  injection Havg as <-. by rewrite Htot.
Qed.

Lemma average_round_half_even_witness :
  resources seed_db <> [] /\
  Z.abs (total_utilization (resources seed_db)) < 2 ^ 52 /\
  exists s,
    resource_stats seed_db = Ok s /\
    averageUtilization s =
      round_half_even_div (total_utilization (resources seed_db)) (totalResources s).
Proof.
  assert (resources seed_db <> []) as Hne by discriminate.
  assert (Z.abs (total_utilization (resources seed_db)) < 2 ^ 52) as Hsum
    by (vm_compute; reflexivity).
  split; [exact Hne|]. split; [exact Hsum|].
  exact (average_round_half_even seed_db Hne Hsum).
Defined.

(** C5: on an empty collection of resources the statistics are returned
    with [averageUtilization] 0, and on no collection at all do they raise
    [ZeroDivisionError]: the division is only reached with a positive
    divisor. *)
Theorem empty_average_is_zero (d : db) :
  (resources d = [] ->
   exists s, resource_stats d = Ok s /\ averageUtilization s = 0 /\ totalResources s = 0) /\
  resource_stats d <> Raise ZeroDivisionError.
Proof.
  split.
  - intros Hrs. rewrite resource_stats_unfold, Hrs. cbn. eauto.
  - intros Hraise. apply resource_stats_Raise in Hraise. discriminate.
Qed.

Lemma empty_average_is_zero_witness :
  resources (with_resources []) = [] /\
  exists s,
    resource_stats (with_resources []) = Ok s /\
    averageUtilization s = 0 /\ totalResources s = 0.
Proof.
  split; [reflexivity|].
  exact (proj1 (empty_average_is_zero (with_resources [])) eq_refl).
Defined.

(** C6, as stated, fails: of the availabilities 0, 20 and 100 two are
    above 0, so [availableResources] is 2 and not 1. *)
Lemma available_0_20_100_is_not_1 :
  exists s,
    resource_stats (with_resources [resource 1 0; resource 2 20; resource 3 100]) = Ok s /\
    availableResources s <> 1.
Proof. eexists. split; [vm_compute; reflexivity|]. vm_compute. discriminate. Qed.

(** C6, amended: for the collection of resources whose availabilities are
    0, 20 and 100 the statistics are [averageUtilization] = 60,
    [allocatedResources] = 2, [availableResources] = 2 and
    [overallocated] = 1. *)
Theorem stats_0_20_100 (d : db) :
  map Resource.availability (resources d) = [0; 20; 100] ->
  exists s,
    resource_stats d = Ok s /\
    averageUtilization s = 60 /\
    allocatedResources s = 2 /\
    availableResources s = 2 /\
    overallocated s = 1.
Proof.
  intros Hav. rewrite resource_stats_unfold.
  destruct (resources d) as [|r1 [|r2 [|r3 [|? ?]]]]; try discriminate.
  injection Hav as H1 H2 H3.
  rewrite average_utilization_exact; [|done|].
  - eexists. split; [reflexivity|]. cbn [averageUtilization allocatedResources
      availableResources overallocated].
    rewrite !count_filter_cons. unfold total_utilization, sum, len.
    cbn [map foldl length]. rewrite H1, H2, H3. repeat split; reflexivity.
  - unfold total_utilization, sum. cbn [map foldl]. rewrite H1, H2, H3. reflexivity.
Qed.

Lemma stats_0_20_100_witness :
  map Resource.availability
    (resources (with_resources [resource 1 0; resource 2 20; resource 3 100]))
    = [0; 20; 100] /\
  exists s,
    resource_stats (with_resources [resource 1 0; resource 2 20; resource 3 100]) = Ok s /\
    averageUtilization s = 60 /\
    allocatedResources s = 2 /\
    availableResources s = 2 /\
    overallocated s = 1.
Proof.
  split; [reflexivity|].
  exact (stats_0_20_100 (with_resources [resource 1 0; resource 2 20; resource 3 100]) eq_refl).
Defined.

(** C10: for every collection of resources, whatever their availabilities,
    the statistics returned satisfy
    [availableResources + overallocated = totalResources]. *)
Theorem available_plus_overallocated (d : db) (s : Stats) :
  resource_stats d = Ok s ->
  availableResources s + overallocated s = totalResources s.
Proof.
  intros (Htot & _ & Hav & Hover & _)%resource_stats_Ok.
  rewrite Htot, Hav, Hover. apply available_overallocated_sum.
Qed.

Lemma available_plus_overallocated_witness :
  resource_stats (with_resources [resource 1 (-30); resource 2 250; resource 3 0])
    = Ok {| totalResources := 3; allocatedResources := 2;
            availableResources := 1; averageUtilization := 27;
            overallocated := 2; totalProjects := 3 |} /\
  1 + 2 = 3.
Proof.
  assert (resource_stats (with_resources [resource 1 (-30); resource 2 250; resource 3 0])
          = Ok {| totalResources := 3; allocatedResources := 2;
                  availableResources := 1; averageUtilization := 27;
                  overallocated := 2; totalProjects := 3 |}) as Hs
    by (vm_compute; reflexivity).
  split; [exact Hs|].
  exact (available_plus_overallocated _ _ Hs).
Defined.

(** ** Authentication *)

Section Auth.
Context `{Runtime}.

Lemma present_Some (s : string) : s <> ""%string -> present (Some s) = Some s.
Proof. intros Hs. cbn. by destruct (String.eqb_spec s ""). Qed.

Lemma present_inv (v : option string) (s : string) :
  present v = Some s -> v = Some s /\ s <> ""%string.
Proof.
  destruct v as [s'|]; cbn; [|discriminate].
  destruct (String.eqb_spec s' ""); [discriminate|]. by intros [= <-].
Qed.

Lemma first_filter_by_email_Some (email : string) (us : list User.t) (u : User.t) :
  Query.first (Query.filter_by_email email us) = Some u ->
  u ∈ us /\ User.email u = email.
Proof.
  unfold Query.first, Query.filter_by_email, Query.filter.
  induction us as [|u' us IH]; cbn [List.filter]; [discriminate|].
  destruct (String.eqb_spec (User.email u') email) as [He|Hne].
  - intros [= <-]. split; [left|done].
  - intros [Hin He]%IH. split; [by right|done].
Qed.

Lemma first_filter_by_email_None (email : string) (us : list User.t) :
  Query.first (Query.filter_by_email email us) = None <->
  forall u, u ∈ us -> User.email u <> email.
Proof.
  unfold Query.first, Query.filter_by_email, Query.filter.
  induction us as [|u' us IH]; cbn [List.filter].
  - split; [|done]. intros _ u Hu. by apply elem_of_nil in Hu.
  - destruct (String.eqb_spec (User.email u') email) as [He|Hne].
    + split; [discriminate|]. intros Hall. destruct (Hall u'); [left|done].
    + rewrite IH. split.
      * intros Hall u [->|Hu]%elem_of_cons; [done|by apply Hall].
      * intros Hall u Hu. apply Hall. by right.
Qed.

Lemma unknown_email_first (email : string) (st : state) :
  unknown_email email st <->
  Query.first (Query.filter_by_email email (users (database st))) = None.
Proof. symmetry. apply first_filter_by_email_None. Qed.

Lemma known_email_first (email : string) (st : state) :
  known_email email st <->
  exists u, Query.first (Query.filter_by_email email (users (database st))) = Some u.
Proof.
  split.
  - intros (u & Hu & He).
    destruct (Query.first _) as [u'|] eqn:Hfirst; [by eexists|].
    pose proof (proj1 (first_filter_by_email_None _ _) Hfirst u Hu). done.
  - intros [u Hu]. apply first_filter_by_email_Some in Hu as [? ?]. by exists u.
Qed.


(** *** Login *)

Lemma truthy_JStr (s : string) : s <> ""%string -> truthy (JStr s) = true.
Proof. intros Hs. cbn. by destruct (String.eqb_spec s ""). Qed.

Lemma present_value_Some (v : json) :
  truthy v = true -> present_value (Some v) = Some v.
Proof. intros Hv. cbn. by rewrite Hv. Qed.

Lemma api_login_missing (data : login_data) (st : state) :
  present (login_email data) = None \/ present_value (login_password data) = None ->
  api_login data st = Ok (credentials_required, st).
Proof.
  unfold api_login. intros [-> | ->]; [done|]. by destruct (present (login_email data)).
Qed.

Lemma api_login_unknown (email : string) (password : json) (st : state) :
  email <> ""%string -> truthy password = true -> unknown_email email st ->
  api_login {| login_email := Some email; login_password := Some password |} st
    = Ok (invalid_credentials, st).
Proof.
  intros He Hp Hun. unfold api_login. cbn [login_email login_password].
  rewrite present_Some, present_value_Some by done.
  by rewrite (proj1 (unknown_email_first _ _) Hun).
Qed.

Lemma api_login_checked (email : string) (password : json) (st : state) (user : User.t) :
  email <> ""%string -> truthy password = true ->
  Query.first (Query.filter_by_email email (users (database st))) = Some user ->
  api_login {| login_email := Some email; login_password := Some password |} st
    = (verified ← check_password_hash (User.password_hash user) password;
       if negb verified
       then Ok (invalid_credentials, st)
       else Ok (success (JDict (User.to_dict user)),
                {| database := database st;
                   session := <["user_id" := User.id user]> (session st) |})).
Proof.
  intros He Hp Hfirst. unfold api_login. cbn [login_email login_password].
  by rewrite present_Some, present_value_Some, Hfirst by done.
Qed.

(** The four outcomes of a login. *)
Lemma api_login_cases (data : login_data) (st : state) :
  api_login data st = Ok (credentials_required, st) \/
  api_login data st = Ok (invalid_credentials, st) \/
  (exists e, api_login data st = Raise e) \/
  exists user,
    user ∈ users (database st) /\
    api_login data st
      = Ok (success (JDict (User.to_dict user)),
            {| database := database st;
               session := <["user_id" := User.id user]> (session st) |}).
Proof.
  unfold api_login.
  destruct (present (login_email data)) as [email|],
    (present_value (login_password data)) as [password|]; try (by left).
  destruct (Query.first _) as [user|] eqn:Hfirst; [|by right; left].
  apply first_filter_by_email_Some in Hfirst as [Hin _].
  destruct (check_password_hash _ _) as [[]|e]; cbn.
  - right. right. right. by exists user.
  - right. by left.
  - right. right. left. by exists e.
Qed.

Lemma api_login_wrong_password (email password : string) (st : state) :
  email <> ""%string -> password <> ""%string -> wrong_password email password st ->
  api_login {| login_email := Some email; login_password := Some (JStr password) |} st
    = Ok (invalid_credentials, st).
Proof.
  intros He Hp [[u Hu]%known_email_first Hwrong].
  rewrite (api_login_checked email (JStr password) st u) by (done || by apply truthy_JStr).
  apply first_filter_by_email_Some in Hu as [Hin Hmail].
  by rewrite (Hwrong u Hin Hmail).
Qed.

(** With a password that is a string and that is checked without raising,
    an unknown email and a wrong password get the same answer. *)
Lemma login_failure_same_answer (st1 st2 : state) (email password : string) :
  email <> ""%string -> password <> ""%string ->
  unknown_email email st1 ->
  wrong_password email password st2 ->
  api_login {| login_email := Some email; login_password := Some (JStr password) |} st1
    = Ok (invalid_credentials, st1) /\
  api_login {| login_email := Some email; login_password := Some (JStr password) |} st2
    = Ok (invalid_credentials, st2).
Proof.
  intros He Hp Hun Hwrong. split.
  - apply api_login_unknown; [done|by apply truthy_JStr|done].
  - by apply api_login_wrong_password.
Qed.

(** C3 fails on the code.  The password of the request reaches
    [check_password_hash] as it came, and only when a user has the email.
    Whenever that call raises (a password that is not a string, or one that
    cannot be encoded), login raises for an email that a user has, and answers
    'Invalid credentials', status 401, for an email that no user has: the
    caller tells the two apart. *)
Theorem login_raise_reveals_known_email
        (st1 st2 : state) (email : string) (password : json) (e : exn) :
  email <> ""%string -> truthy password = true ->
  unknown_email email st1 ->
  known_email email st2 ->
  (forall user,
     user ∈ users (database st2) -> User.email user = email ->
     check_password_hash (User.password_hash user) password = Raise e) ->
  api_login {| login_email := Some email; login_password := Some password |} st1
    = Ok (invalid_credentials, st1) /\
  api_login {| login_email := Some email; login_password := Some password |} st2
    = Raise e.
Proof.
  intros He Hp Hun [u Hu]%known_email_first Hraise. split.
  - by apply api_login_unknown.
  - rewrite (api_login_checked email password st2 u) by done.
    apply first_filter_by_email_Some in Hu as [Hin Hmail].
    by rewrite (Hraise u Hin Hmail).
Qed.

(** *** Registration *)







Lemma api_register_unknown (e : env) (st : state) (name email password : string)
      (position : option string) :
  name <> ""%string -> email <> ""%string -> password <> ""%string ->
  unknown_email email st ->
  let user := {| User.id := Query.next_id (users (database st));
                 User.name := name;
                 User.email := email;
                 User.password_hash := generate_password_hash (salt e) password;
                 User.position := or_default position "Developer";
                 User.created_at := utcnow e |} in
  api_register e {| reg_name := Some name; reg_email := Some email;
                    reg_password := Some password; reg_position := position |} st
    = Ok (success (JDict (User.to_dict user)),
          {| database := {| users := users (database st) ++ [user];
                            projects := projects (database st);
                            resources := resources (database st) |};
             session := session st |}).
Proof.
  intros Hn He Hp Hun%unknown_email_first user. unfold api_register, Query.add_user.
  cbn [reg_name reg_email reg_password reg_position]. rewrite !present_Some by done.
  by rewrite Hun.
Qed.


(** Registration keeps the emails unique, as the column requires; no other
    request writes to the users. *)
Lemma serve_keeps_unique_emails (e : env) (r : request) (st : state) :
  unique_emails (users (database st)) ->
  unique_emails (users (database (serve e r st))).
Proof.
  intros Huniq. unfold serve. destruct r as [data|data| | | | | |]; cbn [handle].
  - unfold api_register.
    destruct (present (reg_name data)) as [name|], (present (reg_email data)) as [email|],
      (present (reg_password data)) as [password|]; try done.
    unfold Query.add_user.
    destruct (Query.first _) eqn:Hfirst; [done|]. cbn.
    unfold unique_emails in *. rewrite map_app. cbn [map User.email].
    apply NoDup_app. split; [done|]. split; [|apply NoDup_singleton].
    intros x (u & -> & Hu)%list_elem_of_fmap [Heq|[]%elem_of_nil]%elem_of_cons.
    by apply (proj1 (first_filter_by_email_None _ _) Hfirst u).
  - by destruct (api_login_cases data st) as [->|[->|[[e' ->]|(user & _ & ->)]]].
  - unfold api_me. destruct (session st !! "user_id"); [|done].
    destruct (_ =? 0); [done|]. by destruct (Query.get _ _).
  - done.
  - done.
  - done.
  - done.
  - unfold api_resource_stats. by destruct (resource_stats (database st)).
Qed.

(** *** Sessions *)

Lemma api_me_logged_out (st : state) :
  session st !! "user_id" = None -> api_me st = Ok (not_authenticated, st).
Proof. intros Hs. unfold api_me. by rewrite Hs. Qed.

(** Only a login that succeeds puts a user in the session. *)
Lemma serve_keeps_logged_out (e : env) (r : request) (st : state) :
  session st !! "user_id" = None -> logs_in r st = false ->
  session (serve e r st) !! "user_id" = None.
Proof.
  intros Hs Hlog. unfold serve. destruct r as [data|data| | | | | |]; cbn [handle].
  - unfold api_register.
    destruct (present (reg_name data)), (present (reg_email data)),
      (present (reg_password data)); try done.
    unfold Query.add_user.
    by destruct (Query.first _).
  - cbn [logs_in] in Hlog.
    by destruct (api_login_cases data st) as [Hl|[Hl|[[e' Hl]|(user & _ & Hl)]]];
      rewrite Hl in *.
  - unfold api_me. by rewrite Hs.
  - cbn. apply lookup_delete_eq.
  - done.
  - done.
  - done.
  - unfold api_resource_stats. by destruct (resource_stats (database st)).
Qed.

Lemma run_keeps_logged_out (rs : list (env * request)) (st : state) :
  session st !! "user_id" = None -> no_login rs st ->
  session (run rs st) !! "user_id" = None.
Proof.
  revert st. induction rs as [|[e r] rs IH]; intros st Hs Hno; [done|].
  destruct Hno as [Hlog Hno]. cbn [fst snd] in *.
  change (run ((e, r) :: rs) st) with (run rs (serve e r st)).
  apply IH; [|done]. by apply serve_keeps_logged_out.
Qed.

(** C7: in every state (a user in the session or none) logout answers
    with success, removes the user from the session and leaves the database
    as it was; a second logout changes nothing more; and after any
    sequence of requests none of which logs a user in, who-am-I fails with
    'Not authenticated', status 401. *)
Theorem logout_idempotent_then_not_authenticated (st : state) :
  exists st',
    api_logout st = Ok (jsonify [("success", JBool true)]%string, st') /\
    session st' !! "user_id" = None /\
    database st' = database st /\
    api_logout st' = Ok (jsonify [("success", JBool true)]%string, st') /\
    forall rs : list (env * request),
      no_login rs st' ->
      api_me (run rs st') = Ok (not_authenticated, run rs st').
Proof.
  eexists. split; [reflexivity|]. cbn [session database].
  split; [apply lookup_delete_eq|]. split; [done|]. split.
  - unfold api_logout. cbn [session database]. by rewrite delete_delete_eq.
  - intros rs Hno. apply api_me_logged_out. apply run_keeps_logged_out; [|done].
    apply lookup_delete_eq.
Qed.

(** *** What the interface shows of a user *)

Lemma to_dict_view (u : User.t) : JDict (User.to_dict u) = user_view u.
Proof. reflexivity. Qed.

Lemma to_dict_keys (u : User.t) : keys (User.to_dict u) = user_fields.
Proof. reflexivity. Qed.

Lemma answer_keys_failure (m : string) (c : Z) :
  keys (body (failure m c)) ⊆ ["success"; "message"; "data"]%string.
Proof. intros k. cbn. rewrite !elem_of_cons. tauto. Qed.

Lemma answer_keys_success (v : json) :
  keys (body (success v)) ⊆ ["success"; "message"; "data"]%string.
Proof. intros k. cbn. rewrite !elem_of_cons. tauto. Qed.

(** What register, login and who-am-I answer with: a failure without
    data, or the view of a user who is in the table afterwards. *)
Lemma answers_user_cases (e : env) (r : request) (st st' : state) (resp : response) :
  answers_user r = true ->
  handle e r st = Ok (resp, st') ->
  (exists m c, resp = failure m c) \/
  exists u, u ∈ users (database st') /\ resp = success (user_view u).
Proof.
  intros Hr Hh. destruct r as [data|data| | | | | |]; try discriminate; cbn [handle] in Hh.
  - unfold api_register in Hh.
    destruct (present (reg_name data)) as [name|], (present (reg_email data)) as [email|],
      (present (reg_password data)) as [password|];
      try (injection Hh as <- <-; left; by eexists _, _).
    unfold Query.add_user in Hh.
    destruct (Query.first _); [injection Hh as <- <-; left; by eexists _, _|].
    cbn in Hh. injection Hh as <- <-. right. eexists. split; [|reflexivity].
    cbn [database users]. apply elem_of_app. right. by left.
  - destruct (api_login_cases data st) as [Hl|[Hl|[[e' Hl]|(user & Hin & Hl)]]];
      rewrite Hl in Hh; try discriminate; injection Hh as <- <-.
    + left. by eexists _, _.
    + left. by eexists _, _.
    + right. by exists user.
  - unfold api_me in Hh. destruct (session st !! "user_id") as [uid|];
      [|injection Hh as <- <-; left; by eexists _, _].
    destruct (uid =? 0); [injection Hh as <- <-; left; by eexists _, _|].
    destruct (Query.get uid (users (database st))) as [user|] eqn:Hget;
      injection Hh as <- <-; [|left; by eexists _, _].
    right. exists user. split; [|done].
    unfold Query.get, Query.first, Query.filter in Hget.
    apply head_Some_elem_of in Hget.
    apply list_elem_of_In, filter_In in Hget as [Hin _]. by apply list_elem_of_In.
Qed.

Lemma get_rehash (f : User.t -> string) (uid : Z) (us : list User.t) :
  Query.get uid (map (fun u => set_password_hash (f u) u) us)
  = (fun u => set_password_hash (f u) u) <$> Query.get uid us.
Proof.
  unfold Query.get, Query.first, Query.filter.
  induction us as [|u us IH]; [done|]. cbn [map List.filter set_password_hash User.id].
  by destruct (User.id u =? uid).
Qed.

(** C8: whenever register, login or who-am-I answers, the keys of the
    answer are among success, message and data, and its data, if any, is
    that of a user of the table: the columns id, name, email, position and
    created_at under the keys id, name, email, position and createdAt, and
    nothing else.  Neither the password nor the hash has any part in it:
    two registrations that differ only in their (present) passwords get the
    same answer, two logins with the same email that both succeed get the
    same answer whatever their passwords, and who-am-I answers the same
    whatever the stored hashes are. *)
Theorem user_representation_hides_password :
  (forall (e : env) (r : request) (st st' : state) (resp : response),
     answers_user r = true ->
     handle e r st = Ok (resp, st') ->
     keys (body resp) ⊆ ["success"; "message"; "data"]%string /\
     forall v, dict_get "data" (body resp) = Some v ->
       exists u : User.t, u ∈ users (database st') /\ v = user_view u) /\
  (forall (e : env) (st : state) (name email position : option string)
          (password1 password2 : string),
     password1 <> ""%string -> password2 <> ""%string ->
     answer (api_register e {| reg_name := name; reg_email := email;
                               reg_password := Some password1;
                               reg_position := position |} st)
     = answer (api_register e {| reg_name := name; reg_email := email;
                                 reg_password := Some password2;
                                 reg_position := position |} st)) /\
  (forall (st st1 st2 : state) (email : option string) (password1 password2 : option json)
          (resp1 resp2 : response),
     api_login {| login_email := email; login_password := password1 |} st = Ok (resp1, st1) ->
     api_login {| login_email := email; login_password := password2 |} st = Ok (resp2, st2) ->
     status resp1 = 200 -> status resp2 = 200 ->
     resp1 = resp2) /\
  (forall (f : User.t -> string) (st : state),
     answer (api_me (rehash f st)) = answer (api_me st)).
Proof.
  split; [|split; [|split]].
  - intros e r st st' resp Hr Hh.
    destruct (answers_user_cases e r st st' resp Hr Hh) as [(m & c & ->)|(u & Hin & ->)].
    + split; [apply answer_keys_failure|]. intros v Hv. discriminate Hv.
    + split; [apply answer_keys_success|]. intros v [= <-]. by exists u.
  - intros e st name email position password1 password2 Hp1 Hp2. unfold api_register.
    cbn [reg_name reg_email reg_password reg_position]. rewrite !present_Some by done.
    destruct (present name), (present email); try done.
    unfold Query.add_user. by destruct (Query.first _).
  - intros st st1 st2 email password1 password2 resp1 resp2 Hl1 Hl2 Hs1 Hs2.
    unfold api_login in Hl1, Hl2. cbn [login_email login_password] in Hl1, Hl2.
    destruct (present email) as [mail|];
      [|injection Hl1 as <- <-; discriminate].
    destruct (present_value password1) as [v1|];
      [|injection Hl1 as <- <-; discriminate].
    destruct (present_value password2) as [v2|];
      [|injection Hl2 as <- <-; discriminate].
    destruct (Query.first _) as [user|];
      [|injection Hl1 as <- <-; discriminate].
    destruct (check_password_hash _ v1) as [[]|]; cbn in Hl1; try discriminate;
      [|injection Hl1 as <- <-; discriminate].
    destruct (check_password_hash _ v2) as [[]|]; cbn in Hl2; try discriminate;
      [|injection Hl2 as <- <-; discriminate].
    congruence.
  - intros f st. unfold api_me. cbn [rehash session database users].
    destruct (session st !! "user_id") as [uid|]; [|done].
    destruct (uid =? 0); [done|]. rewrite get_rehash.
    by destruct (Query.get uid (users (database st))).
Qed.

(** *** Projects *)


End Auth.

(** ** The claims about authentication on the seeded data *)

Lemma seed_known_email : known_email "john@example.com" seed_state.
Proof. exists seed_user. split; [by left|done]. Qed.

Lemma seed_wrong_password (password : string) :
  password <> "password"%string ->
  wrong_password (H := sample_runtime) "john@example.com" password seed_state.
Proof.
  intros Hp. split; [apply seed_known_email|].
  intros u [->|Hu%elem_of_nil]%elem_of_cons _; [|done].
  change (Ok (String.eqb "password" password) = Ok false).
  by destruct (String.eqb_spec "password" password).
Qed.

Lemma empty_unknown_email (email : string) : unknown_email email empty_state.
Proof. intros u Hu. by apply elem_of_nil in Hu. Qed.

Lemma seed_check_raises (password : json) (user : User.t) :
  (forall p, password <> JStr p) ->
  user ∈ users (database seed_state) ->
  check_password_hash (Runtime := sample_runtime) (User.password_hash user) password
  = Raise Py.AttributeError.
Proof.
  intros Hp [->|Hu%elem_of_nil]%elem_of_cons; [|done].
  destruct password; try reflexivity. by destruct (Hp s).
Qed.

(** The login body [{"email": "john@example.com", "password": 5}]: on a
    database without users it is answered 'Invalid credentials', status 401;
    on the seeded database, where john@example.com is a user, it raises. *)
Lemma login_raise_reveals_known_email_witness :
  api_login (H := sample_runtime)
    {| login_email := Some "john@example.com"%string; login_password := Some (JInt 5) |}
    empty_state = Ok (invalid_credentials, empty_state) /\
  api_login (H := sample_runtime)
    {| login_email := Some "john@example.com"%string; login_password := Some (JInt 5) |}
    seed_state = Raise Py.AttributeError.
Proof.
  refine (login_raise_reveals_known_email (H := sample_runtime)
            empty_state seed_state "john@example.com" (JInt 5) Py.AttributeError
            _ eq_refl (empty_unknown_email _) seed_known_email _).
  - discriminate.
  - intros user Hin _. apply seed_check_raises; [discriminate|done].
Defined.



Lemma logout_idempotent_then_not_authenticated_witness :
  exists st',
    api_logout logged_in_state = Ok (jsonify [("success", JBool true)]%string, st') /\
    api_me (H := sample_runtime)
      (run (H := sample_runtime) [(sample_env, Me); (sample_env, GetProjects)] st')
    = Ok (not_authenticated,
          run (H := sample_runtime) [(sample_env, Me); (sample_env, GetProjects)] st').
Proof.
  destruct (logout_idempotent_then_not_authenticated (H := sample_runtime) logged_in_state)
    as (st' & Hout & _ & _ & _ & Hme).
  exists st'. split; [exact Hout|]. apply Hme. cbn. done.
Defined.

Lemma user_representation_hides_password_witness :
  exists resp st',
    handle (H := sample_runtime) sample_env
      (Login {| login_email := Some "john@example.com"%string;
                login_password := Some (JStr "password") |}) seed_state
    = Ok (resp, st') /\
    status resp = 200 /\
    forall v, dict_get "data" (body resp) = Some v ->
      exists u : User.t,
        u ∈ users (database st') /\ v = user_view (H := sample_runtime) u.
Proof.
  eexists _, _. split; [reflexivity|]. split; [reflexivity|].
  exact (proj2 (proj1 (user_representation_hides_password (H := sample_runtime))
                  sample_env
                  (Login {| login_email := Some "john@example.com"%string;
                            login_password := Some (JStr "password") |})
                  seed_state _ _ eq_refl eq_refl)).
Defined.

(** * Further properties of the code *)

(** ** The database address *)

Lemma prefix_nil (s : string) : String.prefix "" s = true.
Proof. by destruct s. Qed.

Lemma prefix_app (p r : string) : String.prefix p (p +:+ r) = true.
Proof.
  induction p as [|c p IH]; [apply prefix_nil|].
  change (String c p +:+ r)%string with (String c (p +:+ r)). cbn [String.prefix].
  destruct (Ascii.ascii_dec c c); [done|congruence].
Qed.

Lemma prefix_inv (p s : string) :
  String.prefix p s = true -> exists r, s = (p +:+ r)%string.
Proof.
  revert s. induction p as [|c p IH]; intros s.
  - intros _. by exists s.
  - destruct s as [|c' s]; [discriminate|]. cbn [String.prefix].
    destruct (Ascii.ascii_dec c c') as [<-|]; [|discriminate].
    intros [r ->]%IH. by exists r.
Qed.

Lemma substring_all (s : string) : String.substring 0 (String.length s) s = s.
Proof. induction s as [|c s IH]; cbn; [done|by rewrite IH]. Qed.

Lemma substring_after_prefix (p r : string) :
  String.substring (String.length p)
    (String.length (p +:+ r) - String.length p) (p +:+ r) = r.
Proof.
  induction p as [|c p IH]; cbn -[Nat.sub].
  - rewrite Nat.sub_0_r. apply substring_all.
  - exact IH.
Qed.

Lemma replace_first_prefix (old new r : string) :
  replace_first old new (old +:+ r) = (new +:+ r)%string.
Proof.
  destruct (old +:+ r)%string as [|c s] eqn:Hs; cbn [replace_first];
    rewrite <- Hs, prefix_app, substring_after_prefix; reflexivity.
Qed.

Lemma database_uri_Some (url : string) :
  database_uri (Some url) =
    if negb (String.eqb url "") && String.prefix "postgres://" url
    then replace_first "postgres://" "postgresql://" url
    else url.
Proof. reflexivity. Qed.

(** X1: an address that starts with [postgres://] gets the scheme
    [postgresql://] and keeps all that follows it. *)
Theorem database_uri_postgres (rest : string) :
  database_uri (Some ("postgres://" +:+ rest)%string) = ("postgresql://" +:+ rest)%string.
Proof.
  rewrite database_uri_Some.
  remember ("postgres://" +:+ rest)%string as url eqn:Hurl.
  assert (String.prefix "postgres://" url = true) as -> by (subst; apply prefix_app).
  assert (String.eqb url "" = false) as -> by (subst; reflexivity).
  subst. apply replace_first_prefix.
Qed.

(** X2: whatever the environment holds, the address in use does not start
    with [postgres://], and reading it again as the environment's value
    gives the same address. *)
Theorem database_uri_idempotent (v : option string) :
  String.prefix "postgres://" (database_uri v) = false /\
  database_uri (Some (database_uri v)) = database_uri v.
Proof.
  assert (forall url, String.prefix "postgres://" url = false ->
                      database_uri (Some url) = url) as Hkeep.
  { intros url Hp. rewrite database_uri_Some, Hp. by rewrite andb_false_r. }
  assert (String.prefix "postgres://" (database_uri v) = false) as Hp.
  { unfold database_uri.
    destruct (negb _ && String.prefix "postgres://" (default _ v)) eqn:Hc.
    - apply andb_true_iff in Hc as [_ [r ->]%prefix_inv].
      rewrite replace_first_prefix. reflexivity.
    - apply andb_false_iff in Hc as [Hc|Hc]; [|done].
      apply negb_false_iff, String.eqb_eq in Hc. rewrite Hc. reflexivity. }
  split; [done|]. by apply Hkeep.
Qed.

Section Further.
Context `{Runtime}.

(** ** Seeding *)

(** What [init_db] does to each table: nothing when it has a row. *)
Lemma init_db_tables (e : env) (d : db) :
  exists d',
    init_db e d = Ok d' /\
    users d' =
      match users d with
      | [] => [ {| User.id := 1;
                   User.name := "Babafemi Oyindamola";
                   User.email := "john@example.com";
                   User.password_hash := generate_password_hash (salt e) "password";
                   User.position := "Project Manager";
                   User.created_at := utcnow e |} ]
      | _ :: _ => users d
      end /\
    projects d' =
      match projects d with
      | [] =>
          add_project "CRM System" "Oluleye Philip" 19367 19569 "completed" (utcnow e)
            (add_project "Mobile Banking App" "Akinleye Tolu" 19478 19676 "active" (utcnow e)
               (add_project "E-commerce Platform" "Babafemi Oyindamola" 19431 19630
                  "active" (utcnow e) []))
      | _ :: _ => projects d
      end /\
    resources d' =
      match resources d with
      | [] =>
          add_resource "Oluleye Philip" "UX Designer" 0 "CRM System"
            (add_resource "Akinleye Tolu" "Senior Developer" 20 "Mobile Banking App"
               (add_resource "Benjamin Godswill" "Project Manager" 0
                  "E-commerce Platform" []))
      | _ :: _ => resources d
      end.
Proof.
  destruct d as [us ps rs]. unfold init_db, Query.add_user, Query.first.
  cbn [users projects resources].
  destruct us as [|u us], ps as [|p ps], rs as [|r rs]; cbn; eexists; (split; [reflexivity|]);
    cbn; done.
Qed.

(** X3: seeding never fails, and seeding again, at whatever time and with
    whatever salt, changes nothing more. *)
Theorem init_db_idempotent (e1 e2 : env) (d : db) :
  exists d', init_db e1 d = Ok d' /\ init_db e2 d' = Ok d'.
Proof.
  destruct (init_db_tables e1 d) as (d' & Hd' & Hu & Hp & Hr).
  exists d'. split; [done|].
  destruct (init_db_tables e2 d') as (d'' & -> & Hu' & Hp' & Hr'). f_equal.
  destruct d' as [us' ps' rs'], d'' as [us'' ps'' rs'']. cbn [users projects resources] in *.
  f_equal.
  - rewrite Hu', Hu. by destruct (users d).
  - rewrite Hp', Hp. by destruct (projects d).
  - rewrite Hr', Hr. by destruct (resources d).
Qed.

(** X4: seeding leaves every table that has a row exactly as it is, and
    leaves no table empty. *)
Theorem init_db_keeps_rows (e : env) (d : db) :
  exists d',
    init_db e d = Ok d' /\
    (users d <> [] -> users d' = users d) /\
    (projects d <> [] -> projects d' = projects d) /\
    (resources d <> [] -> resources d' = resources d) /\
    users d' <> [] /\ projects d' <> [] /\ resources d' <> [].
Proof.
  destruct (init_db_tables e d) as (d' & Hd' & Hu & Hp & Hr).
  exists d'. split; [done|]. rewrite Hu, Hp, Hr.
  destruct (users d), (projects d), (resources d); done.
Qed.

(** ** What the requests do to the state *)

Lemma next_id_above (us : list User.t) (u : User.t) :
  u ∈ us -> User.id u < Query.next_id us.
Proof.
  unfold Query.next_id. induction us as [|v us IH]; intros Hu.
  - by apply elem_of_nil in Hu.
  - cbn [map foldr]. apply elem_of_cons in Hu as [->|Hu]; [lia|].
    specialize (IH Hu). lia.
Qed.

Lemma next_id_positive (us : list User.t) : 1 <= Query.next_id us.
Proof.
  unfold Query.next_id. induction us as [|v us IH]; cbn [map foldr]; lia.
Qed.

(** The effect of a request on the database: none, or one new user at the
    end of the table, with a fresh key and a fresh email, the session
    being kept. *)
Lemma serve_database (e : env) (r : request) (st : state) :
  database (serve e r st) = database st \/
  exists user,
    database (serve e r st)
      = {| users := users (database st) ++ [user];
           projects := projects (database st);
           resources := resources (database st) |} /\
    session (serve e r st) = session st /\
    User.id user = Query.next_id (users (database st)) /\
    unknown_email (User.email user) st.
Proof.
  unfold serve. destruct r as [data|data| | | | | |]; cbn [handle].
  - unfold api_register.
    destruct (present (reg_name data)) as [name|], (present (reg_email data)) as [email|],
      (present (reg_password data)) as [password|]; try (by left).
    unfold Query.add_user.
    destruct (Query.first _) eqn:Hfirst; [by left|]. right. cbn.
    eexists. split; [reflexivity|]. split; [done|]. split; [done|].
    by apply unknown_email_first.
  - left. by destruct (api_login_cases data st) as [->|[->|[[e' ->]|(user & _ & ->)]]].
  - left. unfold api_me. destruct (session st !! "user_id"); [|done].
    destruct (_ =? 0); [done|]. by destruct (Query.get _ _).
  - by left.
  - by left.
  - by left.
  - by left.
  - left. unfold api_resource_stats. by destruct (resource_stats (database st)).
Qed.

(** The effect of a request on the session: none, the user removed, or a
    user of the table put in, the database being kept. *)
Lemma serve_session (e : env) (r : request) (st : state) :
  session (serve e r st) = session st \/
  session (serve e r st) = delete "user_id" (session st) \/
  exists user,
    user ∈ users (database st) /\
    database (serve e r st) = database st /\
    session (serve e r st) = <["user_id" := User.id user]> (session st).
Proof.
  unfold serve. destruct r as [data|data| | | | | |]; cbn [handle].
  - left. unfold api_register.
    destruct (present (reg_name data)) as [name|], (present (reg_email data)) as [email|],
      (present (reg_password data)) as [password|]; try done.
    unfold Query.add_user. by destruct (Query.first _).
  - destruct (api_login_cases data st) as [->|[->|[[e' ->]|(user & Hin & ->)]]];
      try (by left).
    right. right. by exists user.
  - left. unfold api_me. destruct (session st !! "user_id"); [|done].
    destruct (_ =? 0); [done|]. by destruct (Query.get _ _).
  - right. by left.
  - by left.
  - by left.
  - by left.
  - left. unfold api_resource_stats. by destruct (resource_stats (database st)).
Qed.

Lemma run_cons (e : env) (r : request) (rs : list (env * request)) (st : state) :
  run ((e, r) :: rs) st = run rs (serve e r st).
Proof. reflexivity. Qed.

Lemma store_ok_add (d : db) (user : User.t) :
  store_ok d ->
  User.id user = Query.next_id (users d) ->
  (forall u, u ∈ users d -> User.email u <> User.email user) ->
  store_ok {| users := users d ++ [user]; projects := projects d; resources := resources d |}.
Proof.
  intros (Hemails & Hids & Hpos) Hid Hfresh. unfold store_ok, unique_emails in *.
  cbn [users]. rewrite !map_app. cbn [map]. split; [|split].
  - apply NoDup_app. split; [done|]. split; [|apply NoDup_singleton].
    intros x (u & -> & Hu)%list_elem_of_fmap [Heq|[]%elem_of_nil]%elem_of_cons.
    by apply (Hfresh u).
  - apply NoDup_app. split; [done|]. split; [|apply NoDup_singleton].
    intros x (u & -> & Hu)%list_elem_of_fmap [Heq|[]%elem_of_nil]%elem_of_cons.
    pose proof (next_id_above _ _ Hu). lia.
  - apply Forall_app. split; [done|]. apply Forall_singleton.
    rewrite Hid. apply next_id_positive.
Qed.

(** X5: every request keeps the users well formed: emails unique, keys
    unique and at least 1; so does every sequence of requests. *)
Theorem run_keeps_store_ok (rs : list (env * request)) (st : state) :
  store_ok (database st) -> store_ok (database (run rs st)).
Proof.
  revert st. induction rs as [|[e r] rs IH]; intros st Hok; [done|].
  rewrite run_cons. apply IH.
  destruct (serve_database e r st) as [->|(user & -> & _ & Hid & Hun)]; [done|].
  by apply store_ok_add.
Qed.

Lemma serve_keeps_session_ok (e : env) (r : request) (st : state) :
  session_ok st -> session_ok (serve e r st).
Proof.
  intros Hok uid Huid.
  destruct (serve_session e r st) as [Hs|[Hs|(user & Hin & Hdb & Hs)]].
  - rewrite Hs in Huid. destruct (Hok uid Huid) as (u & Hu & Hid).
    exists u. split; [|done].
    destruct (serve_database e r st) as [->|(user & -> & _)]; [done|].
    cbn [users]. apply elem_of_app. by left.
  - rewrite Hs, lookup_delete_eq in Huid. discriminate.
  - rewrite Hs, lookup_insert_eq in Huid. injection Huid as <-.
    exists user. by rewrite Hdb.
Qed.

Lemma run_keeps_session_ok (rs : list (env * request)) (st : state) :
  session_ok st -> session_ok (run rs st).
Proof.
  revert st. induction rs as [|[e r] rs IH]; intros st Hok; [done|].
  rewrite run_cons. apply IH. by apply serve_keeps_session_ok.
Qed.

Lemma get_Some_of_id (uid : Z) (us : list User.t) :
  (exists u, u ∈ us /\ User.id u = uid) -> is_Some (Query.get uid us).
Proof.
  unfold Query.get, Query.first, Query.filter. intros (u & Hu & Hid).
  induction us as [|v us IH]; [by apply elem_of_nil in Hu|].
  cbn [List.filter]. destruct (Z.eqb_spec (User.id v) uid) as [|Hne]; [by eexists|].
  apply IH. apply elem_of_cons in Hu as [->|Hu]; [done|done].
Qed.

(** X6: users are never deleted, so a session that names an existing user
    keeps doing so: after any sequence of requests who-am-I answers either
    'Not authenticated' or with a user of the table, and never 'User not
    found'. *)
Theorem me_never_not_found (rs : list (env * request)) (st : state) :
  session_ok st ->
  api_me (run rs st) = Ok (not_authenticated, run rs st) \/
  exists user,
    user ∈ users (database (run rs st)) /\
    api_me (run rs st) = Ok (success (JDict (User.to_dict user)), run rs st).
Proof.
  intros Hok%(run_keeps_session_ok rs). set (st' := run rs st) in *.
  unfold api_me. destruct (session st' !! "user_id") as [uid|] eqn:Hs; [|by left].
  destruct (Z.eqb_spec uid 0); [by left|]. right.
  destruct (get_Some_of_id uid (users (database st')) (Hok uid Hs)) as [user Huser].
  exists user. rewrite Huser. split; [|done].
  unfold Query.get, Query.first, Query.filter in Huser.
  apply head_Some_elem_of in Huser. apply list_elem_of_In, filter_In in Huser as [Hin _].
  by apply list_elem_of_In.
Qed.

Lemma run_tables (rs : list (env * request)) (st : state) :
  projects (database (run rs st)) = projects (database st) /\
  resources (database (run rs st)) = resources (database st) /\
  users (database st) `prefix_of` users (database (run rs st)).
Proof.
  revert st. induction rs as [|[e r] rs IH]; intros st; [done|].
  rewrite run_cons. destruct (IH (serve e r st)) as (-> & -> & Hpre).
  destruct (serve_database e r st) as [Hdb|(user & Hdb & _)]; rewrite Hdb in *.
  - done.
  - cbn [users projects resources] in *. split; [done|]. split; [done|].
    etransitivity; [|exact Hpre]. by apply prefix_app_r.
Qed.

(** X7: no request writes to the projects or to the resources, and the
    users only grow at the end: after any sequence of requests the two
    tables are as they were and the old users are a prefix of the new. *)
Theorem run_frames (rs : list (env * request)) (st : state) :
  projects (database (run rs st)) = projects (database st) /\
  resources (database (run rs st)) = resources (database st) /\
  users (database st) `prefix_of` users (database (run rs st)).
Proof. apply run_tables. Qed.

(** X8: the statistics are the same before and after any sequence of
    requests. *)
Theorem run_keeps_stats (rs : list (env * request)) (st : state) :
  resource_stats (database (run rs st)) = resource_stats (database st).
Proof.
  destruct (run_tables rs st) as (Hp & Hr & _).
  rewrite !resource_stats_unfold, Hp, Hr. reflexivity.
Qed.

(** ** Register, login, who-am-I *)

Lemma filter_by_email_app (email : string) (us vs : list User.t) :
  Query.filter_by_email email (us ++ vs)
  = Query.filter_by_email email us ++ Query.filter_by_email email vs.
Proof. unfold Query.filter_by_email, Query.filter. apply List.filter_app. Qed.

Lemma filter_by_email_unknown (email : string) (us : list User.t) :
  (forall u, u ∈ us -> User.email u <> email) -> Query.filter_by_email email us = [].
Proof.
  intros Hun%first_filter_by_email_None. unfold Query.first in Hun.
  by destruct (Query.filter_by_email email us).
Qed.

Lemma api_login_success (email password : string) (st : state) (user : User.t) :
  email <> ""%string -> password <> ""%string ->
  Query.first (Query.filter_by_email email (users (database st))) = Some user ->
  check_password_hash (User.password_hash user) (JStr password) = Ok true ->
  api_login {| login_email := Some email; login_password := Some (JStr password) |} st
    = Ok (success (JDict (User.to_dict user)),
          {| database := database st;
             session := <["user_id" := User.id user]> (session st) |}).
Proof.
  intros He Hp Hfirst Hcheck.
  rewrite (api_login_checked email (JStr password) st user) by (done || by apply truthy_JStr).
  by rewrite Hcheck.
Qed.

(** X9: when a password verifies against its own hash, a registration that
    succeeds can be followed by a login with the same email and password:
    the login succeeds, answers with the very user that the registration
    answered with, and puts that user's key in the session. *)
Theorem register_then_login (e : env) (st : state)
        (name email password : string) (position : option string) :
  hash_correct ->
  name <> ""%string -> email <> ""%string -> password <> ""%string ->
  unknown_email email st ->
  exists user st1,
    api_register e {| reg_name := Some name; reg_email := Some email;
                      reg_password := Some password; reg_position := position |} st
      = Ok (success (JDict (User.to_dict user)), st1) /\
    api_login {| login_email := Some email; login_password := Some (JStr password) |} st1
      = Ok (success (JDict (User.to_dict user)),
            {| database := database st1;
               session := <["user_id" := User.id user]> (session st1) |}).
Proof.
  intros Hhash Hn He Hp Hun. eexists _, _.
  split; [by apply api_register_unknown|].
  apply api_login_success; [done|done| |apply Hhash].
  cbn [database users]. rewrite filter_by_email_app, filter_by_email_unknown by done.
  unfold Query.filter_by_email, Query.filter. cbn [List.filter User.email app].
  by rewrite String.eqb_refl.
Qed.

Lemma get_of_member (us : list User.t) (u : User.t) :
  NoDup (map User.id us) -> u ∈ us -> Query.get (User.id u) us = Some u.
Proof.
  unfold Query.get, Query.first, Query.filter. induction us as [|v us IH]; intros Hnd Hu.
  - by apply elem_of_nil in Hu.
  - cbn [map] in Hnd. apply NoDup_cons in Hnd as [Hnotin Hnd]. cbn [List.filter].
    apply elem_of_cons in Hu as [->|Hu].
    + by rewrite Z.eqb_refl.
    + destruct (Z.eqb_spec (User.id v) (User.id u)) as [Heq|]; [|by apply IH].
      destruct Hnotin. rewrite Heq. by apply list_elem_of_fmap_2.
Qed.

(** X10: in a well-formed store, a login that succeeds can be followed by
    who-am-I, which answers with the same user and changes nothing. *)
Theorem login_then_me (data : login_data) (st st' : state) (resp : response) :
  store_ok (database st) ->
  api_login data st = Ok (resp, st') ->
  status resp = 200 ->
  api_me st' = Ok (resp, st').
Proof.
  intros (_ & Hids & Hpos) Hlogin Hstatus.
  destruct (api_login_cases data st) as [Hl|[Hl|[[e' Hl]|(user & Hin & Hl)]]];
    rewrite Hl in Hlogin; try discriminate;
    try (injection Hlogin as <- <-; discriminate).
  injection Hlogin as <- <-.
  unfold api_me. cbn [session database]. rewrite lookup_insert_eq.
  assert (1 <= User.id user) as Hid.
  { rewrite Forall_forall in Hpos. by apply Hpos. }
  destruct (Z.eqb_spec (User.id user) 0); [lia|].
  by rewrite get_of_member.
Qed.

(** ** The seeded account *)

(** X11: seeding keeps the users well formed. *)
Theorem init_db_keeps_store_ok (e : env) (d : db) :
  store_ok d -> exists d', init_db e d = Ok d' /\ store_ok d'.
Proof.
  intros Hok. destruct (init_db_tables e d) as (d' & Hd' & Hu & _).
  exists d'. split; [done|]. unfold store_ok, unique_emails in *. rewrite Hu.
  destruct (users d); [|done]. cbn. split; [apply NoDup_singleton|].
  split; [apply NoDup_singleton|]. apply Forall_singleton. done.
Qed.

(** X12: when a password verifies against its own hash, seeding a database
    without users makes the account john@example.com with the password
    'password': that login succeeds and puts the key 1 in the session. *)
Theorem seeded_account_logs_in (e : env) (d : db) (sess : gmap string Z) :
  hash_correct ->
  users d = [] ->
  exists d' resp,
    init_db e d = Ok d' /\
    api_login {| login_email := Some "john@example.com"%string;
                 login_password := Some (JStr "password") |}
              {| database := d'; session := sess |}
      = Ok (resp, {| database := d'; session := <["user_id" := 1]> sess |}) /\
    status resp = 200.
Proof.
  intros Hhash Hempty. destruct (init_db_tables e d) as (d' & Hd' & Hu & _).
  rewrite Hempty in Hu.
  match type of Hu with _ = [?u] => set (user := u) in * end.
  exists d', (success (JDict (User.to_dict user))). split; [done|].
  split; [|reflexivity].
  rewrite (api_login_success "john@example.com" "password" _ user); [done|done|done| |].
  - cbn [database]. rewrite Hu. reflexivity.
  - apply Hhash.
Qed.

(** ** The listings *)

(** X16: the statistics count what the listings show: [totalResources] is
    the number of entries that the resource listing answers with, and
    [totalProjects] the number of entries of the project listing. *)
Theorem stats_match_listings (st : state) (s : Stats) :
  resource_stats (database st) = Ok s ->
  exists resources_data projects_data,
    api_get_resources st = Ok (success (JList resources_data), st) /\
    api_get_projects st = Ok (success (JList projects_data), st) /\
    len resources_data = totalResources s /\
    len projects_data = totalProjects s.
Proof.
  intros (Htot & _ & _ & _ & Hproj & _)%resource_stats_Ok.
  eexists _, _. split; [reflexivity|]. split; [reflexivity|].
  unfold len, Query.count in *. rewrite !length_map, Htot, Hproj. split; [done|].
  f_equal. unfold Query.order_by_updated_at_desc.
  apply Permutation_length, merge_sort_Permutation.
Qed.

Lemma resource_to_dict_inj (r1 r2 : Resource.t) :
  Resource.to_dict r1 = Resource.to_dict r2 -> r1 = r2.
Proof.
  destruct r1 as [i1 n1 p1 a1 c1], r2 as [i2 n2 p2 a2 c2]. unfold Resource.to_dict.
  cbn [Resource.id Resource.name Resource.position Resource.availability
       Resource.current_project].
  intros [= -> -> -> -> Hc]. f_equal. by destruct c1, c2; try injection Hc as ->.
Qed.

Lemma resource_listing_inj (rs1 rs2 : list Resource.t) :
  map (fun r => JDict (Resource.to_dict r)) rs1
  = map (fun r => JDict (Resource.to_dict r)) rs2 ->
  rs1 = rs2.
Proof.
  revert rs2. induction rs1 as [|r1 rs1 IH]; intros [|r2 rs2]; cbn [map];
    try discriminate; [done|].
  intros Heq. injection Heq as Hid Hname Hpos Hav Hproj Hrs.
  f_equal; [|by apply IH].
  apply resource_to_dict_inj. unfold Resource.to_dict. congruence.
Qed.

(** X17: the resource listing shows every column, in the order of the
    table: two states with the same listing have the same resources. *)
Theorem resource_listing_determines_table (st1 st2 : state) (resp : response) :
  api_get_resources st1 = Ok (resp, st1) ->
  api_get_resources st2 = Ok (resp, st2) ->
  resources (database st1) = resources (database st2).
Proof.
  unfold api_get_resources. intros [= <-] [= Heq].
  symmetry. by apply resource_listing_inj.
Qed.

End Further.

(** ** More on the statistics *)

Lemma allocated_sum (rs : list Resource.t) :
  Query.count (Query.filter (fun r => Resource.availability r <? 100) rs)
  = Query.count (Query.filter (fun r => Resource.availability r <=? 0) rs)
    + count_partial rs.
Proof.
  unfold count_partial. induction rs as [|r rs IH]; [reflexivity|].
  rewrite !count_filter_cons, IH.
  destruct (Z.ltb_spec (Resource.availability r) 100),
           (Z.leb_spec (Resource.availability r) 0),
           (Z.leb_spec 1 (Resource.availability r)),
           (Z.leb_spec (Resource.availability r) 99); cbn [andb]; lia.
Qed.

(** X13: the allocated resources are the overallocated ones and those with
    availability in 1..99; the latter are the ones counted both as allocated
    and as available, so that
    [allocatedResources + availableResources = totalResources + that count];
    and [0 <= overallocated <= allocatedResources <= totalResources]. *)
Theorem allocated_decomposition (d : db) (s : Stats) :
  resource_stats d = Ok s ->
  allocatedResources s = overallocated s + count_partial (resources d) /\
  allocatedResources s + availableResources s
    = totalResources s + count_partial (resources d) /\
  0 <= overallocated s <= allocatedResources s /\
  allocatedResources s <= totalResources s.
Proof.
  intros (Htot & Hall & Hav & Hover & _)%resource_stats_Ok.
  pose proof (allocated_sum (resources d)) as Hsum.
  pose proof (available_overallocated_sum (resources d)) as Hpart.
  pose proof (four_classes_sum (resources d)) as Hfour.
  pose proof (count_nonneg
    (Query.filter (fun r => Resource.availability r <=? 0) (resources d))).
  assert (0 <= count_partial (resources d)) by apply count_nonneg.
  assert (0 <= count_full (resources d)) by apply count_nonneg.
  assert (0 <= count_above (resources d)) by apply count_nonneg.
  rewrite Htot, Hall, Hav, Hover. lia.
Qed.

Lemma total_utilization_between (lo hi : Z) (rs : list Resource.t) :
  Forall (fun r => lo <= 100 - Resource.availability r <= hi) rs ->
  lo * len rs <= total_utilization rs <= hi * len rs.
Proof.
  unfold len. induction 1 as [|r rs Hr _ IH]; [cbn; lia|].
  rewrite total_utilization_cons. cbn [length]. lia.
Qed.

Lemma round_half_even_div_between (lo hi N D : Z) :
  0 < D -> lo * D <= N <= hi * D -> lo <= round_half_even_div N D <= hi.
Proof.
  intros HD HN. destruct (round_half_even_div_nearest N D HD) as [Hz|[Hz _]]; nia.
Qed.

(** X14: the average lies where the utilizations lie: if every utilization
    [100 - availability] of a non-empty collection is between [lo] and [hi]
    and their sum is below [2 ^ 52] in magnitude, the statistics are
    returned and [lo <= averageUtilization <= hi]. *)
Theorem average_between (lo hi : Z) (d : db) :
  resources d <> [] ->
  Z.abs (total_utilization (resources d)) < 2 ^ 52 ->
  Forall (fun r => lo <= 100 - Resource.availability r <= hi) (resources d) ->
  exists s, resource_stats d = Ok s /\ lo <= averageUtilization s <= hi.
Proof.
  intros Hne Hsum Hall. destruct (resource_stats_returns d Hsum) as [s Hs].
  exists s. split; [done|].
  apply resource_stats_Ok in Hs as (_ & _ & _ & _ & _ & Havg).
  rewrite average_utilization_exact in Havg by done. injection Havg as <-.
  apply round_half_even_div_between.
  - destruct (resources d); [done|apply len_pos].
  - by apply total_utilization_between.
Qed.

Lemma average_between_witness :
  exists s, resource_stats seed_db = Ok s /\ 80 <= averageUtilization s <= 100.
Proof.
  apply (average_between 80 100 seed_db).
  - discriminate.
  - vm_compute. reflexivity.
  - repeat constructor; vm_compute; discriminate.
Defined.

(** The counts and the sum only see the availabilities. *)
Lemma count_filter_availability (p : Z -> bool) (rs : list Resource.t) :
  Query.count (Query.filter (fun r => p (Resource.availability r)) rs)
  = Query.count (Query.filter p (map Resource.availability rs)).
Proof.
  induction rs as [|r rs IH]; [reflexivity|].
  cbn [map]. by rewrite !count_filter_cons, IH.
Qed.

Lemma count_filter_Permutation {A} (p : A -> bool) (l1 l2 : list A) :
  l1 ≡ₚ l2 -> Query.count (Query.filter p l1) = Query.count (Query.filter p l2).
Proof.
  induction 1 as [|x l1 l2 _ IH|x y l|l1 l2 l3 _ IH1 _ IH2].
  - reflexivity.
  - by rewrite !count_filter_cons, IH.
  - rewrite !count_filter_cons. lia.
  - by rewrite IH1.
Qed.

Lemma sum_Permutation (l1 l2 : list Z) : l1 ≡ₚ l2 -> sum l1 = sum l2.
Proof.
  induction 1 as [|x l1 l2 _ IH|x y l|l1 l2 l3 _ IH1 _ IH2].
  - reflexivity.
  - by rewrite !sum_cons, IH.
  - rewrite !sum_cons. lia.
  - by rewrite IH1.
Qed.

Lemma total_utilization_availability (rs : list Resource.t) :
  total_utilization rs = sum (map (fun a => 100 - a) (map Resource.availability rs)).
Proof. unfold total_utilization. by rewrite map_map. Qed.

(** X15: the statistics depend on the availabilities, in whatever order,
    and on the number of projects, and on nothing else: not on the names,
    positions or projects of the resources, nor on the users. *)
Theorem stats_depend_on_availabilities (d1 d2 : db) :
  map Resource.availability (resources d1) ≡ₚ map Resource.availability (resources d2) ->
  length (projects d1) = length (projects d2) ->
  resource_stats d1 = resource_stats d2.
Proof.
  intros Hperm Hproj. rewrite !resource_stats_unfold.
  assert (length (resources d1) = length (resources d2)) as Hlen.
  { apply Permutation_length in Hperm. by rewrite !length_map in Hperm. }
  assert (average_utilization (resources d1) = average_utilization (resources d2)) as ->.
  { unfold average_utilization, len. rewrite !total_utilization_availability.
    rewrite (sum_Permutation _ _ (Permutation_map (fun a => 100 - a) Hperm)), Hlen.
    destruct (resources d1), (resources d2); try done. }
  rewrite !(count_filter_availability (fun a => a <? 100)),
    !(count_filter_availability (fun a => a >? 0)),
    !(count_filter_availability (fun a => a <=? 0)).
  rewrite !(count_filter_Permutation _ _ _ Hperm).
  unfold Query.count. by rewrite Hlen, Hproj.
Qed.

Lemma stats_depend_on_availabilities_witness :
  resource_stats (with_resources [resource 7 20; resource 8 0; resource 9 0])
  = resource_stats seed_db.
Proof.
  apply stats_depend_on_availabilities; [|reflexivity].
  cbn. apply Permutation_swap.
Defined.

(** ** The scripts of the dashboard page *)

Lemma count_filter_le {A} (p q : A -> bool) (rows : list A) :
  (forall x, p x = true -> q x = true) ->
  Query.count (Query.filter p rows) <= Query.count (Query.filter q rows).
Proof.
  intros Hpq. induction rows as [|x rows IH]; [reflexivity|].
  rewrite !count_filter_cons. specialize (Hpq x).
  destruct (p x), (q x); first [lia | by specialize (Hpq eq_refl)].
Qed.

Lemma availability_class_card (r : Resource.t) :
  availability_class (Resource.availability r) = card_class r.
Proof.
  unfold availability_class, card_class, resource_status.
  by destruct (Resource.availability r <=? 20), (Resource.availability r <=? 50).
Qed.

(** X18: the resource page and the counters above it, on one database: the
    cards whose utilization figure has the class 'availability-low' are at
    least [overallocated] many, and those whose figure has the class
    'availability-high' are at most [availableResources] many.  The
    dashboard table has a row for each of the first five resources only, in
    the order of the cards, and the availability of a row has the class
    that the utilization figure has on that resource's card. *)
Theorem cards_agree_with_stats (d : db) (s : Stats) :
  resource_stats d = Ok s ->
  overallocated s <=
    Query.count (Query.filter
      (fun c => String.eqb c "availability-low") (card_classes (resources d))) /\
  Query.count (Query.filter
      (fun c => String.eqb c "availability-high") (card_classes (resources d)))
    <= availableResources s /\
  len (dashboard_classes (resources d)) = Z.min 5 (len (resources d)) /\
  dashboard_classes (resources d) = take 5 (card_classes (resources d)).
Proof.
  intros (_ & _ & Hav & Hover & _)%resource_stats_Ok. rewrite Hav, Hover.
  clear Hav Hover. unfold card_classes, dashboard_classes. split; [|split; [|split]].
  - unfold Query.count, Query.filter, len.
    induction (resources d) as [|r rs IH]; [reflexivity|].
    cbn [map List.filter]. unfold card_class at 1, resource_status.
    destruct (Z.leb_spec (Resource.availability r) 0),
      (Z.leb_spec (Resource.availability r) 20),
      (Z.leb_spec (Resource.availability r) 50);
      cbn [fst]; simpl String.eqb; cbv iota; rewrite ?length_cons; lia.
  - unfold Query.count, Query.filter, len.
    induction (resources d) as [|r rs IH]; [reflexivity|].
    cbn [map List.filter]. unfold card_class at 1, resource_status.
    destruct (Z.gtb_spec (Resource.availability r) 0),
      (Z.leb_spec (Resource.availability r) 20),
      (Z.leb_spec (Resource.availability r) 50);
      cbn [fst]; simpl String.eqb; cbv iota; rewrite ?length_cons; lia.
  - unfold len. rewrite length_map, length_take. lia.
  - change (map card_class (resources d)) with (card_class <$> resources d).
    rewrite <- (fmap_take card_class 5 (resources d)).
    apply map_ext. intros r. apply availability_class_card.
Qed.

Lemma cards_agree_with_stats_witness :
  2 <= Query.count (Query.filter
         (fun c => String.eqb c "availability-low") (card_classes (resources seed_db))).
Proof.
  refine (proj1 (cards_agree_with_stats seed_db
                   {| totalResources := 3; allocatedResources := 3;
                      availableResources := 1; averageUtilization := 93;
                      overallocated := 2; totalProjects := 3 |} _)).
  vm_compute. reflexivity.
Defined.

(** X19: the class of a project's status badge as the dashboard and the
    project page compute it.  The two are the same exactly for the statuses
    'active' and 'completed': both give 'status-active' for 'active' and
    'status-completed' for 'completed'.  Any other status gets
    'status-completed' on the dashboard and 'status-planning' on the project
    page. *)
Theorem badges_agree_iff (status : string) :
  (dashboard_badge status = projects_badge status
   <-> status = "active"%string \/ status = "completed"%string) /\
  (status = "active"%string ->
   dashboard_badge status = "status-active"%string /\
   projects_badge status = "status-active"%string) /\
  (status = "completed"%string ->
   dashboard_badge status = "status-completed"%string /\
   projects_badge status = "status-completed"%string) /\
  (status <> "active"%string -> status <> "completed"%string ->
   dashboard_badge status = "status-completed"%string /\
   projects_badge status = "status-planning"%string).
Proof.
  unfold dashboard_badge, projects_badge.
  destruct (String.eqb_spec status "active") as [->|Ha].
  { split; [by split; [left|]|]. split; [done|]. split; [discriminate|done]. }
  destruct (String.eqb_spec status "completed") as [->|Hc].
  { split; [by split; [right|]|]. split; [discriminate|]. split; [done|done]. }
  split; [split; [discriminate|by intros [|]]|]. split; [done|]. split; [done|done].
Qed.

Lemma badges_agree_iff_witness :
  dashboard_badge "planning" = "status-completed"%string /\
  projects_badge "planning" = "status-planning"%string.
Proof.
  refine (proj2 (proj2 (proj2 (badges_agree_iff "planning"))) _ _); discriminate.
Defined.

(** ** The further properties on the sample data *)

Lemma seed_store_ok : store_ok seed_db.
Proof.
  split; [apply NoDup_singleton|]. split; [apply NoDup_singleton|].
  apply Forall_singleton. done.
Qed.

Lemma logged_in_session_ok : session_ok logged_in_state.
Proof.
  intros uid Huid. exists seed_user. split; [by left|].
  cbn in Huid. rewrite lookup_singleton_eq in Huid. by injection Huid as <-.
Qed.

Lemma plain_hash_correct : hash_correct (H := plain_runtime).
Proof. intros salt password. cbn. by rewrite String.eqb_refl. Qed.

Lemma run_keeps_store_ok_witness :
  store_ok (database (run (H := sample_runtime)
                        [(sample_env, Register ada); (sample_env, Logout)] seed_state)).
Proof.
  exact (run_keeps_store_ok (H := sample_runtime)
           [(sample_env, Register ada); (sample_env, Logout)] seed_state seed_store_ok).
Defined.

Lemma me_never_not_found_witness :
  let st := run (H := sample_runtime)
              [(sample_env, Register ada); (sample_env, GetProjects)] logged_in_state in
  api_me (H := sample_runtime) st = Ok (not_authenticated, st) \/
  exists user,
    user ∈ users (database st) /\
    api_me (H := sample_runtime) st
      = Ok (success (JDict (User.to_dict (H := sample_runtime) user)), st).
Proof.
  exact (me_never_not_found (H := sample_runtime)
           [(sample_env, Register ada); (sample_env, GetProjects)]
           logged_in_state logged_in_session_ok).
Defined.

Lemma register_then_login_witness :
  exists user st1,
    api_register (H := plain_runtime) sample_env ada seed_state
      = Ok (success (JDict (User.to_dict (H := plain_runtime) user)), st1) /\
    api_login (H := plain_runtime)
      {| login_email := Some "ada@example.com"%string; login_password := Some (JStr "pw") |}
      st1
      = Ok (success (JDict (User.to_dict (H := plain_runtime) user)),
            {| database := database st1;
               session := <["user_id" := User.id user]> (session st1) |}).
Proof.
  refine (register_then_login (H := plain_runtime) sample_env seed_state
            "Ada" "ada@example.com" "pw" None plain_hash_correct _ _ _ _);
    try discriminate.
  intros u [->|Hu%elem_of_nil]%elem_of_cons; [discriminate|done].
Defined.

Lemma login_then_me_witness :
  exists resp st',
    api_login (H := sample_runtime)
      {| login_email := Some "john@example.com"%string;
         login_password := Some (JStr "password") |} seed_state = Ok (resp, st') /\
    api_me (H := sample_runtime) st' = Ok (resp, st').
Proof.
  eexists _, _. split; [reflexivity|].
  exact (login_then_me (H := sample_runtime)
           {| login_email := Some "john@example.com"%string;
              login_password := Some (JStr "password") |} seed_state _ _
           seed_store_ok eq_refl eq_refl).
Defined.

Lemma init_db_keeps_store_ok_witness :
  exists d', init_db (H := sample_runtime) sample_env seed_db = Ok d' /\ store_ok d'.
Proof. exact (init_db_keeps_store_ok (H := sample_runtime) sample_env seed_db seed_store_ok). Defined.

Lemma seeded_account_logs_in_witness :
  exists d' resp,
    init_db (H := plain_runtime) sample_env (database empty_state) = Ok d' /\
    api_login (H := plain_runtime)
      {| login_email := Some "john@example.com"%string;
         login_password := Some (JStr "password") |}
      {| database := d'; session := ∅ |}
      = Ok (resp, {| database := d'; session := <["user_id" := 1]> ∅ |}) /\
    status resp = 200.
Proof.
  exact (seeded_account_logs_in (H := plain_runtime) sample_env (database empty_state) ∅
           plain_hash_correct eq_refl).
Defined.

Lemma seed_stats :
  resource_stats seed_db
  = Ok {| totalResources := 3; allocatedResources := 3;
          availableResources := 1; averageUtilization := 93;
          overallocated := 2; totalProjects := 3 |}.
Proof. vm_compute. reflexivity. Qed.

Lemma allocated_decomposition_witness :
  3 = 2 + count_partial (resources seed_db).
Proof. exact (proj1 (allocated_decomposition seed_db _ seed_stats)). Defined.

Lemma stats_match_listings_witness :
  exists resources_data projects_data,
    api_get_resources seed_state = Ok (success (JList resources_data), seed_state) /\
    api_get_projects (H := sample_runtime) seed_state
      = Ok (success (JList projects_data), seed_state) /\
    len resources_data = 3 /\
    len projects_data = 3.
Proof. exact (stats_match_listings (H := sample_runtime) seed_state _ seed_stats). Defined.

Lemma resource_listing_determines_table_witness :
  resources (database seed_state) = resources (database logged_in_state).
Proof.
  exact (resource_listing_determines_table seed_state logged_in_state _ eq_refl eq_refl).
Defined.
